(** * DHT temperature and humidity sensor driver: a shallow embedding

    The development follows the component's implementation and its header
    [include/dht.h].  A device instance
    ([struct Dht]) is a buffer of timestamped data-line edges plus a signed
    cursor; the platform collaborators ([dht_get_microseconds],
    [dht_get_data_line_level], the pin and interrupt shims) are external, so
    the values they return are taken as arguments and the calls made to them
    are collected in a call log.

    Conventions.
    - [unsigned] is 32 bits wide (ESP32 and every platform of the examples);
      unsigned arithmetic is written with its wrap-around, [u32].
    - [int] values that the code only compares or increments below a guard
      are plain [Z].
    - A read or write outside [edges[0 .. 83]] is undefined behaviour in C;
      the embedding returns [None] there. *)

From Stdlib Require Import ZArith Lia Bool.
From stdpp Require Import base option list strings.

Local Open Scope Z_scope.

(** ** Data model ([include/dht.h]) *)

Inductive DhtStatus : Type :=
| DHT_OK
| DHT_NO_DATA
| DHT_BUSY
| DHT_DATA_READY
| DHT_ERR_TIMEOUT
| DHT_ERR_SEQUENCE_INVALID
| DHT_ERR_CRC.

(** The enumerators' values, [0b00000000] to [0b00100000]. *)
Definition status_code (st : DhtStatus) : Z :=
  match st with
  | DHT_OK => 0
  | DHT_NO_DATA => 1
  | DHT_BUSY => 2
  | DHT_DATA_READY => 4
  | DHT_ERR_TIMEOUT => 8
  | DHT_ERR_SEQUENCE_INVALID => 16
  | DHT_ERR_CRC => 32
  end.

Definition status_eqb (a b : DhtStatus) : bool := status_code a =? status_code b.

Inductive DhtDataLevel : Type :=
| DHT_DATA_LOW
| DHT_DATA_HIGH.

Definition level_eqb (a b : DhtDataLevel) : bool :=
  match a, b with
  | DHT_DATA_LOW, DHT_DATA_LOW | DHT_DATA_HIGH, DHT_DATA_HIGH => true
  | _, _ => false
  end.

Record DhtEdge : Type := mkEdge { timestamp : Z; level : DhtDataLevel }.

Definition DHT_EDGES_NUMBER : Z := 84.

Record Dht : Type := mkDht { edges : list DhtEdge; current_edge : Z }.

Record DhtReading : Type := mkReading { integral : Z; decimal : Z }.

Record DhtData : Type :=
  mkData { humidity : DhtReading; temperature : DhtReading; crc : Z }.

(** ** Constants of the implementation *)

Definition DHT_ACK_TIMEOUT_US : Z := 60.
Definition DHT_DATA_BIT_0 : Z := 0.
Definition DHT_DATA_BIT_1 : Z := 1.
Definition DHT_DATA_BIT_0_DURATION_US_MAX : Z := 35.
Definition DHT_DATA_BIT_1_DURATION_US_MAX : Z := 80.
Definition DHT_DATA_EDGES_PER_BYTE : Z := 16.
Definition DHT_INTEGRAL_RH_EDGES_INDEX : Z := 2.
Definition DHT_DECIMAL_RH_EDGES_INDEX : Z := 18.
Definition DHT_INTEGRAL_T_EDGES_INDEX : Z := 34.
Definition DHT_DECIMAL_T_EDGES_INDEX : Z := 50.
Definition DHT_CHECKSUM_EDGES_INDEX : Z := 66.
Definition DHT_NO_DATA_AVAILABLE : Z := -1.
Definition DHT_NEW_EDGE_TIMEOUT_US : Z := 100.
Definition DHT_MOST_SIGNIFICANT_BIT_OFFSET : Z := 7.
Definition DHT_START_SIGNAL_DURATION_MS_MIN : Z := 18.
Definition DHT_START_SIGNAL_DURATION_MS_MAX : Z := 20.

(** ** Machine arithmetic and array access *)

(** Conversion to [unsigned] and to [uint8_t]. *)
Definition u32 (x : Z) : Z := x mod 2 ^ 32.
Definition u8 (x : Z) : Z := x mod 2 ^ 8.

(** [edges[i]] as an rvalue: defined only inside the array. *)
Definition edge_at (es : list DhtEdge) (i : Z) : option DhtEdge :=
  if 0 <=? i then es !! Z.to_nat i else None.

(** [edges[i] = e]: defined only inside the array. *)
Definition edge_store (es : list DhtEdge) (i : Z) (e : DhtEdge) : option (list DhtEdge) :=
  if (0 <=? i) && (i <? Z.of_nat (length es))
  then Some (<[Z.to_nat i := e]> es)
  else None.

(** ** Frame decoder *)

(** The loop of [dht_decode_byte]: [edges] points at [es + base], [i] is the
    loop counter, [data_byte] the byte accumulated so far.  [fuel] bounds the
    number of iterations; eight are made. *)
Fixpoint decode_loop (fuel : nat) (es : list DhtEdge) (base i bit_offset data_byte : Z)
  : option (DhtStatus * Z) :=
  if i <? DHT_DATA_EDGES_PER_BYTE then
    match fuel with
    | O => None
    | S fuel' =>
      e0 ← edge_at es (base + i);
      if negb (level_eqb (level e0) DHT_DATA_LOW) then Some (DHT_ERR_SEQUENCE_INVALID, data_byte)
      else
        e1 ← edge_at es (base + (i + 1));
        if negb (level_eqb (level e1) DHT_DATA_HIGH) then Some (DHT_ERR_SEQUENCE_INVALID, data_byte)
        else
          e2 ← edge_at es (base + (i + 2));
          let data_bit_duration_us := u32 (timestamp e2 - timestamp e1) in
          if data_bit_duration_us >? DHT_DATA_BIT_1_DURATION_US_MAX
          then Some (DHT_ERR_TIMEOUT, data_byte)
          else
            let bit := if data_bit_duration_us >? DHT_DATA_BIT_0_DURATION_US_MAX
                       then DHT_DATA_BIT_1 else DHT_DATA_BIT_0 in
            decode_loop fuel' es base (i + 2) (bit_offset - 1)
                        (u8 (Z.lor data_byte (Z.shiftl bit bit_offset)))
    end
  else Some (DHT_OK, data_byte).

(** [dht_decode_byte(es + base, &data_byte)]: the status returned and the
    value left in [*data_byte] (also on failure, where it holds the bits
    accumulated before the offending one). *)
Definition dht_decode_byte (es : list DhtEdge) (base : Z) : option (DhtStatus * Z) :=
  decode_loop 8 es base 0 DHT_MOST_SIGNIFICANT_BIT_OFFSET 0.

Definition dht_calculate_data_crc (data : DhtData) : Z :=
  Z.land (integral (humidity data) + decimal (humidity data)
          + integral (temperature data) + decimal (temperature data)) 255.

(** ** Platform collaborators

    The calls the component makes to the platform layer, in the order made.
    [dht_get_data_line_level] and [dht_get_microseconds] return values; those
    are arguments of the operations below. *)
Inductive HalCall : Type :=
| hal_config_data_line_output
| hal_config_data_line_input
| hal_data_line_irq_enable
| hal_data_line_irq_disable
| hal_set_data_line_high
| hal_set_data_line_low
| hal_sleep_ms (min_time_ms max_time_ms : Z)
| hal_notify_sequence_completed.

Definition is_notify (c : HalCall) : bool :=
  match c with hal_notify_sequence_completed => true | _ => false end.

(** Number of completion notifications in a call log. *)
Definition notifications (log : list HalCall) : nat := length (filter is_notify log).

(** ** Sequence controller and capture path *)

Definition dht_init (self : Dht) : Dht :=
  mkDht (edges self) DHT_NO_DATA_AVAILABLE.

(** [self->current_edge = DHT_NO_DATA;] stores the status enumerator.  This
    is the call during which no edge is handled; [dht_abort_read_irq] below
    has the edges handled between the store and the interrupt disable. *)
Definition dht_abort_read (self : Dht) : Dht * list HalCall :=
  (mkDht (edges self) (status_code DHT_NO_DATA), [hal_data_line_irq_disable]).

(** [lvl] is what [dht_get_data_line_level] returns, [now] what
    [dht_get_microseconds] returns when the edge is recorded. *)
Definition dht_handle_data_line_edge (self : Dht) (lvl : DhtDataLevel) (now : Z)
  : option (Dht * list HalCall) :=
  let ce := current_edge self in
  if (ce =? 0) && level_eqb lvl DHT_DATA_LOW
     || (ce >? 0) && (ce <? DHT_EDGES_NUMBER)
  then
    es ← edge_store (edges self) ce (mkEdge now lvl);
    let ce' := ce + 1 in
    Some (mkDht es ce',
          if ce' =? DHT_EDGES_NUMBER then [hal_notify_sequence_completed] else [])
  else Some (self, []).

(** [now] is what [dht_get_microseconds] returns; it is read only on the
    in-progress branch. *)
Definition dht_check_status (self : Dht) (now : Z) : option DhtStatus :=
  if current_edge self =? DHT_NO_DATA_AVAILABLE then Some DHT_NO_DATA
  else if current_edge self <? DHT_EDGES_NUMBER then
    last_edge ← edge_at (edges self) (current_edge self - 1);
    let last_edge_timestamp := timestamp last_edge in
    let microseconds_elapsed := u32 (now - last_edge_timestamp) in
    if microseconds_elapsed >? DHT_NEW_EDGE_TIMEOUT_US
    then Some DHT_ERR_TIMEOUT
    else Some DHT_BUSY
  else Some DHT_DATA_READY.

(** [data] is the caller's structure before the call; the result carries the
    status and the structure as the call leaves it. *)
Definition dht_get_data (self : Dht) (now : Z) (data : DhtData)
  : option (DhtStatus * DhtData) :=
  status ← dht_check_status self now;
  if negb (status_eqb status DHT_DATA_READY) then Some (status, data)
  else
    '(status, b) ← dht_decode_byte (edges self) DHT_INTEGRAL_RH_EDGES_INDEX;
    let data := mkData (mkReading b (decimal (humidity data))) (temperature data) (crc data) in
    if negb (status_eqb status DHT_OK) then Some (status, data)
    else
      let data := mkData (mkReading (integral (humidity data)) 0) (temperature data) (crc data) in
      '(status, b) ← dht_decode_byte (edges self) DHT_INTEGRAL_T_EDGES_INDEX;
      let data := mkData (humidity data) (mkReading b (decimal (temperature data))) (crc data) in
      if negb (status_eqb status DHT_OK) then Some (status, data)
      else
        let data := mkData (humidity data) (mkReading (integral (temperature data)) 0) (crc data) in
        '(status, b) ← dht_decode_byte (edges self) DHT_CHECKSUM_EDGES_INDEX;
        let data := mkData (humidity data) (temperature data) b in
        if negb (dht_calculate_data_crc data =? crc data)
        then Some (DHT_ERR_CRC, data)
        else Some (DHT_OK, data).

(** The conditional has type [int]; the return converts it to [unsigned]. *)
Definition dht_get_edges_count (self : Dht) : Z :=
  u32 (if current_edge self >? 0 then current_edge self else 0).

(** The [switch] of [dht_status_to_str], on the integer value of its
    argument. *)
Definition status_str_of_code (c : Z) : string :=
  if c =? status_code DHT_OK then "DHT_OK"
  else if c =? status_code DHT_NO_DATA then "DHT_NO_DATA"
  else if c =? status_code DHT_BUSY then "DHT_NO_DATA"
  else if c =? status_code DHT_DATA_READY then "DHT_DATA_READY"
  else if c =? status_code DHT_ERR_TIMEOUT then "DHT_ERR_TIMEOUT"
  else if c =? status_code DHT_ERR_SEQUENCE_INVALID then "DHT_ERR_SEQUENCE_INVALID"
  else if c =? status_code DHT_ERR_CRC then "DHT_ERR_CRC"
  else "DHT_STATUS_UNKNOWN".

Definition dht_status_to_str (status : DhtStatus) : string :=
  status_str_of_code (status_code status).

(** *** Edges arriving while the foreground code runs

    [dht_handle_data_line_edge] runs in the edge-arrival context.  An
    [EdgeEvent] is one invocation of it: the level and the clock value it
    reads. *)
Record EdgeEvent : Type := mkEvent { ev_level : DhtDataLevel; ev_time : Z }.

(** The handler run once per event, in order; the call logs are appended. *)
Fixpoint handle_edges (self : Dht) (evs : list EdgeEvent) : option (Dht * list HalCall) :=
  match evs with
  | [] => Some (self, [])
  | ev :: evs' =>
    '(self1, log1) ← dht_handle_data_line_edge self (ev_level ev) (ev_time ev);
    '(self2, log2) ← handle_edges self1 evs';
    Some (self2, log1 ++ log2)
  end.

(** Result of a call that busy-waits. *)
Inductive Run (A : Type) : Type :=
| Returns (a : A)
| Undefined
| Polling.
Arguments Returns {A} a.
Arguments Undefined {A}.
Arguments Polling {A}.

(** One evaluation of the loop condition of [dht_wait_for_ack] followed by
    one read of the clock: the edges handled since the previous evaluation,
    and the value [dht_get_microseconds] then returns. *)
Record AckPoll : Type := mkPoll { irq_before_test : list EdgeEvent; poll_time : Z }.

(** [dht_wait_for_ack]: [Polling] when the polls run out with the loop still
    spinning. *)
Fixpoint dht_wait_for_ack (self : Dht) (start_time : Z) (polls : list AckPoll)
  : Run (DhtStatus * Dht * list HalCall) :=
  match polls with
  | [] => Polling
  | p :: polls' =>
    match handle_edges self (irq_before_test p) with
    | None => Undefined
    | Some (self1, log1) =>
      if current_edge self1 =? 0 then
        let microseconds_elapsed := u32 (poll_time p - start_time) in
        if microseconds_elapsed >? DHT_ACK_TIMEOUT_US
        then Returns (DHT_ERR_TIMEOUT, self1, log1)
        else
          match dht_wait_for_ack self1 start_time polls' with
          | Returns (st, self2, log2) => Returns (st, self2, log1 ++ log2)
          | Undefined => Undefined
          | Polling => Polling
          end
      else Returns (DHT_OK, self1, log1)
    end
  end.

(** What the environment does during one [dht_start_read]: the edges handled
    between arming the interrupt and the cursor reset (the start signal
    itself toggles the line), the first clock value read by
    [dht_wait_for_ack], and its polls. *)
Record StartSchedule : Type :=
  mkSchedule { irq_during_start_signal : list EdgeEvent;
               ack_start_time : Z;
               ack_polls : list AckPoll }.

Definition dht_start_read (self : Dht) (sched : StartSchedule)
  : Run (DhtStatus * Dht * list HalCall) :=
  let '(self0, log0) := dht_abort_read self in
  let log1 := log0 ++ [hal_config_data_line_output; hal_data_line_irq_enable;
                       hal_set_data_line_low;
                       hal_sleep_ms DHT_START_SIGNAL_DURATION_MS_MIN DHT_START_SIGNAL_DURATION_MS_MAX;
                       hal_set_data_line_high] in
  match handle_edges self0 (irq_during_start_signal sched) with
  | None => Undefined
  | Some (self1, log_irq) =>
    let self2 := mkDht (edges self1) 0 in
    let log2 := log1 ++ log_irq ++ [hal_config_data_line_input] in
    match dht_wait_for_ack self2 (ack_start_time sched) (ack_polls sched) with
    | Returns (st, self3, log3) =>
      if status_eqb st DHT_ERR_TIMEOUT then
        let '(self4, log4) := dht_abort_read self3 in
        Returns (DHT_ERR_TIMEOUT, self4, log2 ++ log3 ++ log4)
      else Returns (DHT_OK, self3, log2 ++ log3)
    | Undefined => Undefined
    | Polling => Polling
    end
  end.

(** ** Example captures: timelines built from bytes *)

(** The 16 edges of one byte, most significant bit first: each bit is a low
    phase of 50 us then a high phase of 27 us (bit 0) or 70 us (bit 1).
    [t] is the time of the first edge; the result carries the time of the
    edge after the byte. *)
Fixpoint byte_edges (nbits : nat) (b : Z) (t : Z) : list DhtEdge * Z :=
  match nbits with
  | O => ([], t)
  | S n =>
    let high := if Z.testbit b (Z.of_nat n) then 70 else 27 in
    let '(rest, t') := byte_edges n b (t + 50 + high) in
    (mkEdge t DHT_DATA_LOW :: mkEdge (t + 50) DHT_DATA_HIGH :: rest, t')
  end.

Fixpoint frame_edges (bytes : list Z) (t : Z) : list DhtEdge * Z :=
  match bytes with
  | [] => ([], t)
  | b :: bs =>
    let '(es, t1) := byte_edges 8 b t in
    let '(rest, t2) := frame_edges bs t1 in
    (es ++ rest, t2)
  end.

(** A complete capture: the acknowledge (low 80 us, high 80 us), five bytes,
    and the end of sequence (low 50 us, then the line released). *)
Definition timeline_of (bytes : list Z) (t0 : Z) : list DhtEdge :=
  let '(es, t) := frame_edges bytes (t0 + 160) in
  mkEdge t0 DHT_DATA_LOW :: mkEdge (t0 + 80) DHT_DATA_HIGH :: es
  ++ [mkEdge t DHT_DATA_LOW; mkEdge (t + 50) DHT_DATA_HIGH].

Definition ready (es : list DhtEdge) : Dht := mkDht es DHT_EDGES_NUMBER.

Definition blank_data : DhtData := mkData (mkReading 0 0) (mkReading 0 0) 0.

(** The reference scenario: 44 %RH, 25 degrees, checksum 69. *)
Definition scenario_edges : list DhtEdge := timeline_of [44; 0; 25; 0; 69] 1000.

(** ** The decoding rule in the words of the protocol description

    One bit is read from three consecutive edges [(e0, e1, e2)]: [e0] must be
    low and [e1] high, else the sequence is invalid; the bit lasts
    [e2.timestamp - e1.timestamp]; longer than 80 us is a timeout, otherwise
    the bit is 1 exactly when it lasts longer than 35 us. *)
Inductive BitReading : Type :=
| BitInvalid
| BitTimeout
| BitValue (b : bool).

Definition classify_bit (e0 e1 e2 : DhtEdge) : BitReading :=
  match level e0, level e1 with
  | DHT_DATA_LOW, DHT_DATA_HIGH =>
    let duration := u32 (timestamp e2 - timestamp e1) in
    if 80 <? duration then BitTimeout else BitValue (35 <? duration)
  | _, _ => BitInvalid
  end.

(** The reading of bit number [k] (0 is the first on the wire, the most
    significant) of the byte whose window starts at edge [base]. *)
Definition bit_reading (es : list DhtEdge) (base : Z) (k : nat) : option BitReading :=
  e0 ← edge_at es (base + 2 * Z.of_nat k);
  e1 ← edge_at es (base + 2 * Z.of_nat k + 1);
  e2 ← edge_at es (base + 2 * Z.of_nat k + 2);
  Some (classify_bit e0 e1 e2).

(** A byte from its bit readings, first reading at bit position [msb]: the
    first reading that is not a value decides the failure, and the values
    read before it stay in their positions. *)
Fixpoint assemble (rs : list BitReading) (msb : Z) : DhtStatus * Z :=
  match rs with
  | [] => (DHT_OK, 0)
  | BitInvalid :: _ => (DHT_ERR_SEQUENCE_INVALID, 0)
  | BitTimeout :: _ => (DHT_ERR_TIMEOUT, 0)
  | BitValue b :: rs' =>
    let '(st, v) := assemble rs' (msb - 1) in (st, Z.b2z b * 2 ^ msb + v)
  end.

(** The readings of bits [k, k+1, ..] ([n] of them). *)
Fixpoint window_readings (es : list DhtEdge) (base : Z) (k n : nat) : option (list BitReading) :=
  match n with
  | O => Some []
  | S n' =>
    r ← bit_reading es base k;
    rs ← window_readings es base (S k) n';
    Some (r :: rs)
  end.

Definition decode_byte_spec (es : list DhtEdge) (base : Z) : option (DhtStatus * Z) :=
  rs ← window_readings es base 0 8;
  Some (assemble rs 7).

(** A window follows the level and duration pattern when each of its eight
    bits reads as a value. *)
Definition is_value (r : BitReading) : bool :=
  match r with BitValue _ => true | _ => false end.

Definition follows_pattern (es : list DhtEdge) (base : Z) : bool :=
  match window_readings es base 0 8 with
  | Some rs => forallb is_value rs
  | None => false
  end.

(** The byte a window spells, most significant bit first (0 when the window
    has no eight readings). *)
Definition window_value (es : list DhtEdge) (base : Z) : Z :=
  match decode_byte_spec es base with
  | Some (_, v) => v
  | None => 0
  end.


(** Duration of the high phase of bit [k] of the window at [base]. *)
Definition high_duration (es : list DhtEdge) (base : Z) (k : nat) : Z :=
  match edge_at es (base + 2 * Z.of_nat k + 1), edge_at es (base + 2 * Z.of_nat k + 2) with
  | Some e1, Some e2 => u32 (timestamp e2 - timestamp e1)
  | _, _ => 0
  end.

Definition level_at (es : list DhtEdge) (i : Z) : option DhtDataLevel :=
  level <$> edge_at es i.

(** The five byte windows of the frame. *)
Definition byte_windows : list Z :=
  [DHT_INTEGRAL_RH_EDGES_INDEX; DHT_DECIMAL_RH_EDGES_INDEX; DHT_INTEGRAL_T_EDGES_INDEX;
   DHT_DECIMAL_T_EDGES_INDEX; DHT_CHECKSUM_EDGES_INDEX].

(** A capture of 84 edges in which every bit of every byte follows the level
    and duration pattern. *)
Definition pattern_timeline (es : list DhtEdge) : bool :=
  (length es =? 84)%nat && forallb (follows_pattern es) byte_windows.

(** Bit [j] of the window reads as a value; the bits before bit [k] all do. *)
Definition reads_value (es : list DhtEdge) (base : Z) (j : nat) : bool :=
  match bit_reading es base j with
  | Some (BitValue _) => true
  | _ => false
  end.

Definition bits_before (es : list DhtEdge) (base : Z) (k : nat) : bool :=
  forallb (reads_value es base) (seq 0 k).

(** A frame as a sensor reporting 25.3 degrees sends it: the checksum byte
    is the sum of the four bytes on the wire. *)
Definition fractional_edges : list DhtEdge := timeline_of [44; 0; 25; 3; 72] 1000.

(** A frame whose bits are well formed but whose checksum byte is 0. *)
Definition mismatch_edges : list DhtEdge := timeline_of [44; 0; 25; 0; 0] 1000.

(** Edge [i] with its level replaced, its timestamp kept. *)
Definition set_level (lvl : DhtDataLevel) (e : DhtEdge) : DhtEdge :=
  mkEdge (timestamp e) lvl.

Definition with_level (i : nat) (lvl : DhtDataLevel) (es : list DhtEdge) : list DhtEdge :=
  alter (set_level lvl) i es.

(** The scenario capture with the first edge of a window forced high. *)
Definition broken_checksum_edges : list DhtEdge :=
  with_level 66 DHT_DATA_HIGH scenario_edges.

Definition broken_humidity_decimal_edges : list DhtEdge :=
  with_level 18 DHT_DATA_HIGH scenario_edges.

Definition broken_humidity_edges : list DhtEdge :=
  with_level 6 DHT_DATA_HIGH scenario_edges.

Definition broken_temperature_edges : list DhtEdge :=
  with_level 38 DHT_DATA_HIGH scenario_edges.

(** An all-zero frame, checksum 0, with the first checksum edge forced high. *)
Definition zero_broken_checksum_edges : list DhtEdge :=
  with_level 66 DHT_DATA_HIGH (timeline_of [0; 0; 0; 0; 0] 1000).

(** The guard of [dht_handle_data_line_edge], as a proposition. *)
Definition records (self : Dht) (lvl : DhtDataLevel) : Prop :=
  (current_edge self = 0 /\ lvl = DHT_DATA_LOW)
  \/ 0 < current_edge self < DHT_EDGES_NUMBER.

(** [self'] is [self] with the sample [e] appended at the cursor. *)
Definition appended (self self' : Dht) (e : DhtEdge) : Prop :=
  current_edge self' = current_edge self + 1
  /\ edge_at (edges self') (current_edge self) = Some e
  /\ forall j : Z, j <> current_edge self -> edge_at (edges self') j = edge_at (edges self) j.

(** A poll of the acknowledge wait during which no edge arrives. *)
Definition no_edge (p : AckPoll) : bool :=
  match irq_before_test p with [] => true | _ => false end.

(** The log of a [dht_start_read] that times out with no edge handled. *)
Definition timeout_log : list HalCall :=
  [hal_data_line_irq_disable; hal_config_data_line_output; hal_data_line_irq_enable;
   hal_set_data_line_low;
   hal_sleep_ms DHT_START_SIGNAL_DURATION_MS_MIN DHT_START_SIGNAL_DURATION_MS_MAX;
   hal_set_data_line_high; hal_config_data_line_input; hal_data_line_irq_disable].

(** The handler invocations that capture a timeline, and a device whose
    buffer holds nothing yet and whose cursor is whatever memory held. *)
Definition events_of (es : list DhtEdge) : list EdgeEvent :=
  map (fun e => mkEvent (level e) (timestamp e)) es.

Definition uninitialised : Dht := mkDht (replicate 84 (mkEdge 0 DHT_DATA_LOW)) 12345.

(** A [dht_start_read] during which the start signal's own two edges are
    handled, then the acknowledge edge of the scenario arrives 15 us after
    the wait begins. *)
Definition scenario_schedule : StartSchedule :=
  mkSchedule [mkEvent DHT_DATA_LOW 100; mkEvent DHT_DATA_HIGH 18100] 985
             [mkPoll [] 990; mkPoll (take 1 (events_of scenario_edges)) 1001].

(** ** The device as a state machine

    The operations of [dht.h] that act on a device instance, with what the
    platform supplies to each. *)
Inductive Op : Type :=
| op_init
| op_start_read (sched : StartSchedule)
| op_abort_read
| op_handle_data_line_edge (lvl : DhtDataLevel) (now : Z)
| op_check_status (now : Z)
| op_get_data (now : Z) (data : DhtData).

(** The device instance an operation leaves behind. *)
Definition step (self : Dht) (op : Op) : Run Dht :=
  match op with
  | op_init => Returns (dht_init self)
  | op_start_read sched =>
    match dht_start_read self sched with
    | Returns (_, self', _) => Returns self'
    | Undefined => Undefined
    | Polling => Polling
    end
  | op_abort_read => Returns (fst (dht_abort_read self))
  | op_handle_data_line_edge lvl now =>
    match dht_handle_data_line_edge self lvl now with
    | Some (self', _) => Returns self'
    | None => Undefined
    end
  | op_check_status now =>
    match dht_check_status self now with
    | Some _ => Returns self
    | None => Undefined
    end
  | op_get_data now data =>
    match dht_get_data self now data with
    | Some _ => Returns self
    | None => Undefined
    end
  end.

(** The operations that reset the cursor explicitly. *)
Definition resets_cursor (op : Op) : bool :=
  match op with
  | op_init | op_start_read _ | op_abort_read => true
  | _ => false
  end.

(** Device instances a program can hold: a buffer of 84 slots initialised
    by [dht_init], then driven through the operations. *)
Inductive reachable : Dht -> Prop :=
| reachable_init (es : list DhtEdge) (garbage : Z) :
    length es = 84%nat -> reachable (dht_init (mkDht es garbage))
| reachable_step (self self' : Dht) (op : Op) :
    reachable self -> step self op = Returns self' -> reachable self'.

(** The cursor between two calls: no data, or between 1 and the capacity. *)
Definition cursor_ok (ce : Z) : Prop :=
  ce = DHT_NO_DATA_AVAILABLE \/ 1 <= ce <= DHT_EDGES_NUMBER.

(** The values of type [int]. *)
Definition int_range (x : Z) : Prop := - 2 ^ 31 <= x < 2 ^ 31.

(** ** Edges handled while the cursor is being reset

    [dht_abort_read] stores the cursor before it disables the interrupt, and
    [dht_start_read] calls it twice; the handler can run in between.  The
    two operations below are [dht_abort_read] and [dht_start_read] with the
    edges handled at these points added to what the environment supplies;
    with no such edge they are the operations above. *)
Definition dht_abort_read_irq (self : Dht) (irq_before_disable : list EdgeEvent)
  : option (Dht * list HalCall) :=
  '(self1, log1) ← handle_edges (mkDht (edges self) (status_code DHT_NO_DATA))
                                irq_before_disable;
  Some (self1, log1 ++ [hal_data_line_irq_disable]).

(** The environment of one [dht_start_read]: the edges handled between the
    cursor store and the interrupt disable of the first abort, the schedule
    of the start signal and of the acknowledge wait, and, when the wait times
    out, the edges handled between the last test of the cursor and the cursor
    store of the second abort, then those handled before its interrupt
    disable. *)
Record StartInterleaving : Type :=
  mkInterleaving { irq_during_first_abort : list EdgeEvent;
                   start_schedule : StartSchedule;
                   irq_after_last_test : list EdgeEvent;
                   irq_during_last_abort : list EdgeEvent }.

Definition dht_start_read_irq (self : Dht) (il : StartInterleaving)
  : Run (DhtStatus * Dht * list HalCall) :=
  match dht_abort_read_irq self (irq_during_first_abort il) with
  | None => Undefined
  | Some (self0, log0) =>
    let log1 := log0 ++ [hal_config_data_line_output; hal_data_line_irq_enable;
                         hal_set_data_line_low;
                         hal_sleep_ms DHT_START_SIGNAL_DURATION_MS_MIN
                                      DHT_START_SIGNAL_DURATION_MS_MAX;
                         hal_set_data_line_high] in
    match handle_edges self0 (irq_during_start_signal (start_schedule il)) with
    | None => Undefined
    | Some (self1, log_irq) =>
      let self2 := mkDht (edges self1) 0 in
      let log2 := log1 ++ log_irq ++ [hal_config_data_line_input] in
      match dht_wait_for_ack self2 (ack_start_time (start_schedule il))
                             (ack_polls (start_schedule il)) with
      | Returns (st, self3, log3) =>
        if status_eqb st DHT_ERR_TIMEOUT then
          match handle_edges self3 (irq_after_last_test il) with
          | None => Undefined
          | Some (self3', log3') =>
            match dht_abort_read_irq self3' (irq_during_last_abort il) with
            | None => Undefined
            | Some (self4, log4) =>
              Returns (DHT_ERR_TIMEOUT, self4, log2 ++ log3 ++ log3' ++ log4)
            end
          end
        else Returns (DHT_OK, self3, log2 ++ log3)
      | Undefined => Undefined
      | Polling => Polling
      end
    end
  end.

(** The interleaving in which no edge is handled around the aborts. *)
Definition undisturbed (sched : StartSchedule) : StartInterleaving :=
  mkInterleaving [] sched [] [].

(** ** The convenience read

    [dht_read] calls [dht_start_read], then blocks in
    [dht_wait_for_completion], then calls [dht_get_data].  Its log also
    carries the call to [dht_wait_for_completion]. *)
Inductive ReadCall : Type :=
| read_hal (c : HalCall)
| read_wait_for_completion.

(** What the environment does during one [dht_read]: the interleaving of the
    [dht_start_read], the edges handled from then until [dht_get_data] runs,
    and the clock value [dht_get_data] may read. *)
Record ReadSchedule : Type :=
  mkReadSchedule { read_start : StartInterleaving;
                   irq_during_wait : list EdgeEvent;
                   read_now : Z }.

Definition dht_read (self : Dht) (sched : ReadSchedule) (data : DhtData)
  : Run (DhtStatus * DhtData * Dht * list ReadCall) :=
  match dht_start_read_irq self (read_start sched) with
  | Returns (status, self1, log1) =>
    if negb (status_eqb status DHT_OK) then Returns (status, data, self1, map read_hal log1)
    else
      match handle_edges self1 (irq_during_wait sched) with
      | None => Undefined
      | Some (self2, log2) =>
        match dht_get_data self2 (read_now sched) data with
        | None => Undefined
        | Some (status', data') =>
          Returns (status', data', self2,
                   map read_hal log1 ++ read_wait_for_completion :: map read_hal log2)
        end
      end
  | Undefined => Undefined
  | Polling => Polling
  end.

(** Number of completion notifications in the log of a [dht_read]. *)
Definition is_read_notify (c : ReadCall) : bool :=
  match c with read_hal c' => is_notify c' | read_wait_for_completion => false end.

Definition read_notifications (log : list ReadCall) : nat :=
  length (filter is_read_notify log).

(** ** Platform example (ESP32) *)

(** The lines [dht_print_edges] hands to the logger: the values shown for the
    conversions of the two format strings. *)
Inductive LogLine : Type :=
| log_edge (i : Z) (duration_us : Z) (lvl : DhtDataLevel)
| log_last (i : Z) (lvl : DhtDataLevel).

(** An [unsigned] argument formatted with [%d]: shown as it is when it is
    also a value of [int]; passing a larger one is undefined. *)
Definition shown_as_int (x : Z) : option Z :=
  if x <? 2 ^ 31 then Some x else None.

(** The loop of [dht_print_edges]; the result carries the value of [i] when
    the loop ends. *)
Fixpoint print_loop (fuel : nat) (self : Dht) (i : Z) : option (Z * list LogLine) :=
  if i <? current_edge self - 1 then
    match fuel with
    | O => None
    | S fuel' =>
      e1 ← edge_at (edges self) (i + 1);
      e0 ← edge_at (edges self) i;
      duration ← shown_as_int (u32 (timestamp e1 - timestamp e0));
      '(i', lines) ← print_loop fuel' self (i + 1);
      Some (i', log_edge i duration (level e0) :: lines)
    end
  else Some (i, []).

Definition dht_print_edges (self : Dht) : option (list LogLine) :=
  '(i, lines) ← print_loop (Z.to_nat (current_edge self)) self 0;
  e ← edge_at (edges self) i;
  Some (lines ++ [log_last i (level e)]).

(** The time from each captured edge to the next is a value of [int]. *)
Definition durations_fit_int (self : Dht) : bool :=
  forallb (fun j : nat =>
             match edge_at (edges self) (Z.of_nat j), edge_at (edges self) (Z.of_nat j + 1) with
             | Some e0, Some e1 => u32 (timestamp e1 - timestamp e0) <? 2 ^ 31
             | _, _ => true
             end)
          (seq 0 (Z.to_nat (current_edge self - 1))).

(** [dht_sleep_ms] of the ESP32 layer: the number of ticks it passes to
    [vTaskDelay].  [portTICK_PERIOD_MS] comes from the FreeRTOS
    configuration and is a parameter here; a period of 0 divides by zero. *)
Definition dht_sleep_ms (portTICK_PERIOD_MS : Z) (min_time_ms max_time_ms : Z) : option Z :=
  if portTICK_PERIOD_MS =? 0 then None
  else Some (u32 (max_time_ms + portTICK_PERIOD_MS - 1) / portTICK_PERIOD_MS).

(** ** Auxiliary notions for the properties *)

(** The sample the handler stores for an event. *)
Definition edge_of (ev : EdgeEvent) : DhtEdge := mkEdge (ev_time ev) (ev_level ev).

(** A device as it would be had the clock been [d] microseconds ahead. *)
Definition shift_time (d : Z) (e : DhtEdge) : DhtEdge :=
  mkEdge (u32 (timestamp e + d)) (level e).

Definition shift_clock (d : Z) (self : Dht) : Dht :=
  mkDht (shift_time d <$> edges self) (current_edge self).




(** Eighty-three edges handled during the start signal, and a read in which
    they are followed by the acknowledge and the 83 other edges of the
    scenario. *)
Definition start_signal_burst : list EdgeEvent :=
  map (fun k : nat => mkEvent (if Nat.even k then DHT_DATA_LOW else DHT_DATA_HIGH)
                              (100 + Z.of_nat k))
      (seq 0 83).

Definition burst_read_schedule : ReadSchedule :=
  mkReadSchedule
    (undisturbed (mkSchedule start_signal_burst 985
                             [mkPoll [] 990; mkPoll (take 1 (events_of scenario_edges)) 1001]))
    (drop 1 (events_of scenario_edges)) 5000.

(** A capture whose second edge is stamped 3000000000 us after the first. *)
Definition long_gap_edges : list DhtEdge :=
  <[1%nat := mkEdge 3000001000 DHT_DATA_HIGH]> scenario_edges.

(** The edges of a complete capture that the decoder never reads: the two
    acknowledge edges, the inner edges of the two decimal windows, and the
    last edge. *)
Definition unread_edge (i : nat) : bool :=
  ((i <? 2) || ((19 <=? i) && (i <=? 33)) || ((51 <=? i) && (i <=? 65)) || (i =? 83))%nat.

(** An event with a rising level. *)
Definition is_rising (ev : EdgeEvent) : bool := level_eqb (ev_level ev) DHT_DATA_HIGH.

(** A poll of the acknowledge wait before which only rising edges arrive. *)
Definition only_rising (p : AckPoll) : bool := forallb is_rising (irq_before_test p).

(** The polls of the platform stubs: no interrupt ever fires and the clock
    stands at 0. *)
Definition stub_polls (n : nat) : list AckPoll := replicate n (mkPoll [] 0).

(** A poll of the acknowledge wait that reads more than 60 us elapsed. *)
Definition late_poll (start_time : Z) (p : AckPoll) : bool :=
  DHT_ACK_TIMEOUT_US <? u32 (poll_time p - start_time).

(** * Properties *)

(** ** Machine arithmetic *)

Section Arithmetic.

Lemma u8_small (x : Z) : 0 <= x < 256 -> u8 x = x.
Proof. intros H. unfold u8. apply Z.mod_small. lia. Qed.

Lemma u32_small (x : Z) : 0 <= x < 2 ^ 32 -> u32 x = x.
Proof. intros H. unfold u32. now apply Z.mod_small. Qed.

Lemma land_255 (x : Z) : Z.land x 255 = x mod 256.
Proof. change 255 with (Z.ones 8). now rewrite Z.land_ones by lia. Qed.

(** Setting a bit above which the accumulator is a multiple of the next
    power of two adds that power. *)
Lemma lor_fresh_bit (acc off : Z) (b : bool) :
  0 <= off -> acc mod 2 ^ (off + 1) = 0 ->
  Z.lor acc (Z.shiftl (Z.b2z b) off) = acc + Z.b2z b * 2 ^ off.
Proof.
  intros Hoff Hacc.
  rewrite Z.shiftl_mul_pow2 by lia.
  destruct b; simpl Z.b2z.
  - rewrite Z.mul_1_l.
    assert (Hdisj : Z.land acc (2 ^ off) = 0).
    { apply Z.bits_inj'. intros n Hn.
      rewrite Z.land_spec, Z.bits_0, Z.pow2_bits_eqb by lia.
      destruct (Z.eqb_spec off n) as [->|Hne]; [|apply andb_false_r].
      rewrite andb_true_r.
      apply Z.mod_divide in Hacc; [|lia].
      destruct Hacc as [q ->].
      apply Z.mul_pow2_bits_low; lia. }
    rewrite <- Z.lxor_lor by exact Hdisj.
    symmetry. now apply Z.add_nocarry_lxor.
  - rewrite Z.mul_0_l, Z.lor_0_r. lia.
Qed.

(** The accumulator stays a byte, and stays a multiple of the power of the
    bit just set. *)
Lemma fresh_bit_bounds (acc off : Z) (b : bool) :
  0 <= off <= 7 -> 0 <= acc < 256 -> acc mod 2 ^ (off + 1) = 0 ->
  0 <= acc + Z.b2z b * 2 ^ off < 256 /\ (acc + Z.b2z b * 2 ^ off) mod 2 ^ off = 0.
Proof.
  intros Hoff Hrange Hacc.
  apply Z.mod_divide in Hacc; [|lia].
  destruct Hacc as [q ->].
  replace (2 ^ (off + 1)) with (2 * 2 ^ off) in * by (rewrite Z.pow_add_r by lia; lia).
  assert (Hp : 0 < 2 ^ off) by (apply Z.pow_pos_nonneg; lia).
  assert (Hle : 2 ^ off * 2 ^ (7 - off) = 2 ^ 7)
    by (rewrite <- Z.pow_add_r by lia; f_equal; lia).
  assert (Hp' : 0 < 2 ^ (7 - off)) by (apply Z.pow_pos_nonneg; lia).
  assert (Hq : 0 <= q < 2 ^ (7 - off)) by nia.
  split.
  - destruct b; simpl Z.b2z; nia.
  - replace (q * (2 * 2 ^ off) + Z.b2z b * 2 ^ off)
      with ((2 * q + Z.b2z b) * 2 ^ off) by ring.
    apply Z.mod_mul. lia.
Qed.

End Arithmetic.

(** ** Frame decoder *)

Section Decoder.

Variable es : list DhtEdge.
Variable base : Z.

Lemma decode_loop_unfold (fuel : nat) (i bit_offset data_byte : Z) :
  decode_loop (S fuel) es base i bit_offset data_byte
  = if i <? DHT_DATA_EDGES_PER_BYTE then
      e0 ← edge_at es (base + i);
      if negb (level_eqb (level e0) DHT_DATA_LOW) then Some (DHT_ERR_SEQUENCE_INVALID, data_byte)
      else
        e1 ← edge_at es (base + (i + 1));
        if negb (level_eqb (level e1) DHT_DATA_HIGH) then Some (DHT_ERR_SEQUENCE_INVALID, data_byte)
        else
          e2 ← edge_at es (base + (i + 2));
          if u32 (timestamp e2 - timestamp e1) >? DHT_DATA_BIT_1_DURATION_US_MAX
          then Some (DHT_ERR_TIMEOUT, data_byte)
          else
            decode_loop fuel es base (i + 2) (bit_offset - 1)
              (u8 (Z.lor data_byte
                     (Z.shiftl (if u32 (timestamp e2 - timestamp e1) >? DHT_DATA_BIT_0_DURATION_US_MAX
                                then DHT_DATA_BIT_1 else DHT_DATA_BIT_0) bit_offset)))
    else Some (DHT_OK, data_byte).
Proof. reflexivity. Qed.

Lemma decode_loop_done (fuel : nat) (bit_offset data_byte : Z) :
  decode_loop fuel es base 16 bit_offset data_byte = Some (DHT_OK, data_byte).
Proof. destruct fuel; reflexivity. Qed.

Lemma bit_reading_inv (k : nat) (r : BitReading) :
  bit_reading es base k = Some r ->
  exists e0 e1 e2,
    edge_at es (base + 2 * Z.of_nat k) = Some e0
    /\ edge_at es (base + (2 * Z.of_nat k + 1)) = Some e1
    /\ edge_at es (base + (2 * Z.of_nat k + 2)) = Some e2
    /\ r = classify_bit e0 e1 e2.
Proof.
  unfold bit_reading. intros H.
  rewrite !Z.add_assoc.
  destruct (edge_at es (base + 2 * Z.of_nat k)) as [e0|]; [|discriminate].
  destruct (edge_at es (base + 2 * Z.of_nat k + 1)) as [e1|]; [|discriminate].
  destruct (edge_at es (base + 2 * Z.of_nat k + 2)) as [e2|]; [|discriminate].
  simpl in H. injection H as <-. now exists e0, e1, e2.
Qed.

(** The loop invariant: after [k] bits the accumulator holds them in the
    top [k] positions, and the rest of the loop adds what the remaining
    readings assemble to. *)
Lemma decode_loop_assemble :
  forall (n k fuel : nat) (acc : Z) (rs : list BitReading),
    (k + n = 8)%nat -> (n <= fuel)%nat ->
    window_readings es base k n = Some rs ->
    0 <= acc < 256 -> acc mod 2 ^ Z.of_nat n = 0 ->
    decode_loop fuel es base (2 * Z.of_nat k) (7 - Z.of_nat k) acc
    = Some (fst (assemble rs (7 - Z.of_nat k)), acc + snd (assemble rs (7 - Z.of_nat k))).
Proof.
  induction n as [|n IH]; intros k fuel acc rs Hk Hfuel Hrs Hacc Hmod.
  - injection Hrs as <-. assert (k = 8%nat) as -> by lia.
    change (2 * Z.of_nat 8) with 16. rewrite decode_loop_done.
    simpl. now rewrite Z.add_0_r.
  - destruct fuel as [|fuel]; [lia|].
    cbn [window_readings] in Hrs.
    destruct (bit_reading es base k) as [r|] eqn:Hr; [|discriminate].
    destruct (window_readings es base (S k) n) as [rs'|] eqn:Hrs'; [|discriminate].
    simpl in Hrs. injection Hrs as <-.
    destruct (bit_reading_inv _ _ Hr) as (e0 & e1 & e2 & H0 & H1 & H2 & ->).
    rewrite decode_loop_unfold.
    assert (Hlt : (2 * Z.of_nat k <? DHT_DATA_EDGES_PER_BYTE) = true)
      by (apply Z.ltb_lt; unfold DHT_DATA_EDGES_PER_BYTE; lia).
    rewrite Hlt, H0. simpl mbind.
    unfold classify_bit.
    destruct (level e0); simpl; [|now rewrite Z.add_0_r].
    rewrite H1. simpl.
    destruct (level e1); simpl; [now rewrite Z.add_0_r|].
    rewrite H2. simpl.
    unfold DHT_DATA_BIT_1_DURATION_US_MAX, DHT_DATA_BIT_0_DURATION_US_MAX.
    rewrite !Z.gtb_ltb.
    destruct (80 <? u32 (timestamp e2 - timestamp e1)); simpl; [now rewrite Z.add_0_r|].
    set (b := 35 <? u32 (timestamp e2 - timestamp e1)).
    replace (if b then DHT_DATA_BIT_1 else DHT_DATA_BIT_0) with (Z.b2z b)
      by now destruct b.
    assert (Hoff : 0 <= 7 - Z.of_nat k <= 7) by lia.
    assert (Hmod' : acc mod 2 ^ (7 - Z.of_nat k + 1) = 0)
      by (replace (7 - Z.of_nat k + 1) with (Z.of_nat (S n)) by lia; exact Hmod).
    rewrite lor_fresh_bit by (lia || exact Hmod').
    destruct (fresh_bit_bounds acc (7 - Z.of_nat k) b Hoff Hacc Hmod') as [Hb Hm].
    rewrite u8_small by exact Hb.
    replace (2 * Z.of_nat k + 2) with (2 * Z.of_nat (S k)) by lia.
    replace (7 - Z.of_nat k - 1) with (7 - Z.of_nat (S k)) by lia.
    rewrite (IH (S k) fuel _ rs') ; try lia; try assumption.
    + destruct (assemble rs' (7 - Z.of_nat (S k))) as [st v]. simpl.
      f_equal. f_equal. lia.
    + replace (Z.of_nat n) with (7 - Z.of_nat k) by lia. exact Hm.
Qed.

(** Inside the buffer every reading of the window is defined. *)
Lemma window_readings_defined :
  forall (n k : nat),
    0 <= base -> base + 2 * Z.of_nat (k + n) < Z.of_nat (length es) ->
    exists rs, window_readings es base k n = Some rs /\ length rs = n.
Proof.
  induction n as [|n IH]; intros k Hbase Hlen.
  - now exists [].
  - destruct (IH (S k) Hbase) as (rs & Hrs & Hl); [lia|].
    assert (Hedge : forall j, 0 <= j <= 2 -> is_Some (edge_at es (base + 2 * Z.of_nat k + j))).
    { intros j Hj. unfold edge_at.
      destruct (Z.leb_spec 0 (base + 2 * Z.of_nat k + j)); [|lia].
      apply lookup_lt_is_Some. lia. }
    destruct (Hedge 0) as [e0 H0]; [lia|]. rewrite Z.add_0_r in H0.
    destruct (Hedge 1) as [e1 H1]; [lia|].
    destruct (Hedge 2) as [e2 H2]; [lia|].
    exists (classify_bit e0 e1 e2 :: rs).
    cbn [window_readings]. unfold bit_reading.
    rewrite H0, H1, H2, Hrs. simpl. now rewrite Hl.
Qed.

(** Reading number [j] of the list is the reading of bit [k + j]. *)
Lemma window_readings_lookup :
  forall (n k : nat) (rs : list BitReading),
    window_readings es base k n = Some rs ->
    forall j : nat, (j < n)%nat -> rs !! j = bit_reading es base (k + j).
Proof.
  induction n as [|n IH]; intros k rs Hrs j Hj; [lia|].
  cbn [window_readings] in Hrs.
  destruct (bit_reading es base k) as [r|] eqn:Hr; [|discriminate].
  destruct (window_readings es base (S k) n) as [rs'|] eqn:Hrs'; [|discriminate].
  simpl in Hrs. injection Hrs as <-.
  destruct j as [|j].
  - now rewrite Nat.add_0_r, Hr.
  - simpl. rewrite (IH (S k) rs' Hrs' j) by lia. f_equal. lia.
Qed.

Lemma decode_byte_spec_sound (r : DhtStatus * Z) :
  decode_byte_spec es base = Some r -> dht_decode_byte es base = Some r.
Proof.
  unfold decode_byte_spec, dht_decode_byte. intros H.
  destruct (window_readings es base 0 8) as [rs|] eqn:Hrs; [|discriminate].
  simpl in H. injection H as <-.
  assert (E := decode_loop_assemble 8 0 8 0 rs).
  change (2 * Z.of_nat 0) with 0 in E. change (7 - Z.of_nat 0) with 7 in E.
  unfold DHT_MOST_SIGNIFICANT_BIT_OFFSET.
  rewrite E; try lia; try assumption; try reflexivity.
  simpl. now destruct (assemble rs 7).
Qed.

Lemma decode_byte_spec_defined :
  0 <= base -> base + 16 < Z.of_nat (length es) ->
  is_Some (decode_byte_spec es base).
Proof.
  intros Hb Hl. unfold decode_byte_spec.
  destruct (window_readings_defined 8 0 Hb) as (rs & -> & _); [lia|].
  now eexists.
Qed.

End Decoder.

(** *** Assembling a byte from bit readings *)

Section Assemble.

Lemma assemble_values_ok (rs : list BitReading) :
  forall msb : Z, forallb is_value rs = true -> fst (assemble rs msb) = DHT_OK.
Proof.
  induction rs as [|[| |b] rs IH]; intros msb Hv; try discriminate; [reflexivity|].
  simpl in *. specialize (IH (msb - 1) Hv).
  now destruct (assemble rs (msb - 1)).
Qed.

Lemma assemble_range (rs : list BitReading) :
  forall msb : Z,
    Z.of_nat (length rs) <= msb + 1 ->
    0 <= snd (assemble rs msb) < 2 ^ (msb + 1).
Proof.
  induction rs as [|r rs IH]; intros msb Hl.
  - simpl. split; [lia|]. apply Z.pow_pos_nonneg; lia.
  - assert (Hp : 0 < 2 ^ (msb + 1)) by (apply Z.pow_pos_nonneg; simpl in Hl; lia).
    destruct r as [| |b]; simpl; try lia.
    simpl in Hl. specialize (IH (msb - 1)).
    replace (msb - 1 + 1) with msb in IH by lia.
    destruct (assemble rs (msb - 1)) as [st v]. simpl in *.
    replace (2 ^ (msb + 1)) with (2 * 2 ^ msb) by (rewrite Z.pow_add_r by lia; lia).
    destruct b; simpl Z.b2z; lia.
Qed.

(** Reading number [k] lands in bit [msb - k]. *)
Lemma assemble_testbit (rs : list BitReading) :
  forall (msb : Z) (k : nat) (b : bool),
    Z.of_nat (length rs) <= msb + 1 ->
    forallb is_value rs = true ->
    rs !! k = Some (BitValue b) ->
    Z.testbit (snd (assemble rs msb)) (msb - Z.of_nat k) = b.
Proof.
  induction rs as [|r rs IH]; intros msb k b Hl Hv Hk; [discriminate|].
  simpl in Hl, Hv. apply andb_true_iff in Hv as [Hr Hv].
  destruct r as [| |b0]; try discriminate.
  assert (Hrange := assemble_range rs (msb - 1)).
  replace (msb - 1 + 1) with msb in Hrange by lia.
  specialize (IH (msb - 1)).
  simpl. destruct (assemble rs (msb - 1)) as [st v]. simpl in *.
  assert (Hvr : 0 <= v < 2 ^ msb) by (apply Hrange; lia).
  destruct k as [|k].
  - simpl in Hk. injection Hk as ->.
    rewrite Z.sub_0_r, Z.testbit_odd, Z.shiftr_div_pow2 by lia.
    rewrite Z.div_add_l by lia.
    rewrite (Z.div_small v) by lia.
    rewrite Z.add_0_r. now destruct b.
  - simpl in Hk.
    rewrite <- (Z.mod_pow2_bits_low _ msb) by lia.
    rewrite Z.add_comm, Z.mod_add by lia.
    rewrite Z.mod_small by lia.
    replace (msb - Z.of_nat (S k)) with (msb - 1 - Z.of_nat k) by lia.
    apply IH; [lia | assumption | assumption].
Qed.

(** The first reading that is not a value decides the status. *)
Lemma assemble_first_invalid (rs : list BitReading) :
  forall (msb : Z) (k : nat),
    (forall j : nat, (j < k)%nat -> exists b, rs !! j = Some (BitValue b)) ->
    rs !! k = Some BitInvalid ->
    fst (assemble rs msb) = DHT_ERR_SEQUENCE_INVALID.
Proof.
  induction rs as [|r rs IH]; intros msb k Hpre Hk; [discriminate|].
  destruct k as [|k].
  - simpl in Hk. injection Hk as ->. reflexivity.
  - destruct (Hpre 0%nat) as [b Hb]; [lia|]. simpl in Hb. injection Hb as ->.
    simpl. specialize (IH (msb - 1) k).
    destruct (assemble rs (msb - 1)) as [st v]. simpl in *.
    apply IH; [|exact Hk].
    intros j Hj. apply (Hpre (S j)). lia.
Qed.

End Assemble.

(** C6. Applied to a window inside the buffer, [dht_decode_byte] reads its
    eight bits most significant first, each from the triplet of edges
    [(e0, e1, e2)] at the bit's offset: a triplet whose [e0] is not low or
    whose [e1] is not high makes it return [DHT_ERR_SEQUENCE_INVALID]; a
    bit lasting more than 80 us ([e2.timestamp - e1.timestamp]) makes it
    return [DHT_ERR_TIMEOUT]; otherwise the bit is 1 exactly when it lasts
    more than 35 us, and the bits fill the byte from bit 7 down to bit 0. *)
Theorem dht_decode_byte_follows_rule (es : list DhtEdge) (base : Z) :
  0 <= base -> base + 16 < Z.of_nat (length es) ->
  exists rs : list BitReading,
    length rs = 8%nat
    /\ (forall k : nat, (k < 8)%nat ->
         exists e0 e1 e2,
           edge_at es (base + 2 * Z.of_nat k) = Some e0
           /\ edge_at es (base + 2 * Z.of_nat k + 1) = Some e1
           /\ edge_at es (base + 2 * Z.of_nat k + 2) = Some e2
           /\ rs !! k = Some (classify_bit e0 e1 e2))
    /\ dht_decode_byte es base = Some (assemble rs 7).
Proof.
  intros Hbase Hlen.
  destruct (window_readings_defined es base 8 0 Hbase) as (rs & Hrs & Hl); [lia|].
  exists rs. split; [exact Hl|]. split.
  - intros k Hk.
    assert (Hr := window_readings_lookup es base 8 0 rs Hrs k Hk).
    simpl in Hr.
    destruct (rs !! k) as [r|] eqn:Hrk.
    + symmetry in Hr.
      destruct (bit_reading_inv es base k r Hr) as (e0 & e1 & e2 & H0 & H1 & H2 & ->).
      exists e0, e1, e2. rewrite <- !Z.add_assoc. now repeat split.
    + apply lookup_ge_None in Hrk. lia.
  - apply decode_byte_spec_sound. unfold decode_byte_spec. now rewrite Hrs.
Qed.

(** The humidity-integral window of the scenario capture. *)
Lemma dht_decode_byte_follows_rule_witness :
  exists rs : list BitReading,
    length rs = 8%nat
    /\ (forall k : nat, (k < 8)%nat ->
         exists e0 e1 e2,
           edge_at scenario_edges (2 + 2 * Z.of_nat k) = Some e0
           /\ edge_at scenario_edges (2 + 2 * Z.of_nat k + 1) = Some e1
           /\ edge_at scenario_edges (2 + 2 * Z.of_nat k + 2) = Some e2
           /\ rs !! k = Some (classify_bit e0 e1 e2))
    /\ dht_decode_byte scenario_edges 2 = Some (assemble rs 7).
Proof.
  apply (dht_decode_byte_follows_rule scenario_edges 2); [lia|].
  vm_compute. reflexivity.
Defined.

Example decode_scenario_windows :
  dht_decode_byte scenario_edges DHT_INTEGRAL_RH_EDGES_INDEX = Some (DHT_OK, 44)
  /\ dht_decode_byte scenario_edges DHT_INTEGRAL_T_EDGES_INDEX = Some (DHT_OK, 25)
  /\ dht_decode_byte scenario_edges DHT_CHECKSUM_EDGES_INDEX = Some (DHT_OK, 69)
  /\ dht_decode_byte broken_humidity_edges DHT_INTEGRAL_RH_EDGES_INDEX
     = Some (DHT_ERR_SEQUENCE_INVALID, 0).
Proof. repeat split; vm_compute; reflexivity. Qed.

(** *** Windows that follow the pattern *)

Section Windows.

Variable es : list DhtEdge.
Variable base : Z.

Lemma window_readings_length :
  forall (n k : nat) (rs : list BitReading),
    window_readings es base k n = Some rs -> length rs = n.
Proof.
  induction n as [|n IH]; intros k rs Hrs.
  - now injection Hrs as <-.
  - cbn [window_readings] in Hrs.
    destruct (bit_reading es base k) as [r|]; [|discriminate].
    destruct (window_readings es base (S k) n) as [rs'|] eqn:Hrs'; [|discriminate].
    simpl in Hrs. injection Hrs as <-. simpl. f_equal. eauto.
Qed.

Lemma window_value_range : 0 <= window_value es base < 256.
Proof.
  unfold window_value, decode_byte_spec.
  destruct (window_readings es base 0 8) as [rs|] eqn:Hrs; simpl; [|lia].
  assert (Hl := window_readings_length _ _ _ Hrs).
  assert (Hr := assemble_range rs 7).
  destruct (assemble rs 7) as [st v]. simpl in *.
  change (2 ^ (7 + 1)) with 256 in Hr. apply Hr. lia.
Qed.

Lemma decode_pattern :
  follows_pattern es base = true ->
  dht_decode_byte es base = Some (DHT_OK, window_value es base).
Proof.
  unfold follows_pattern, window_value. intros Hp.
  apply decode_byte_spec_sound. unfold decode_byte_spec.
  destruct (window_readings es base 0 8) as [rs|]; [|discriminate].
  simpl. assert (Hok := assemble_values_ok rs 7 Hp).
  destruct (assemble rs 7) as [st v]. simpl in Hok. now subst st.
Qed.

Lemma decode_defined :
  0 <= base -> base + 16 < Z.of_nat (length es) ->
  exists st, dht_decode_byte es base = Some (st, window_value es base).
Proof.
  intros Hb Hl.
  destruct (decode_byte_spec_defined es base Hb Hl) as [[st v] Hs].
  exists st. unfold window_value. rewrite Hs.
  now apply decode_byte_spec_sound.
Qed.

(** A bit that reads as a value has its edges low then high and lasts at
    most 80 us; its value says whether it lasts more than 35 us. *)
Lemma bit_reading_value (k : nat) (b : bool) :
  bit_reading es base k = Some (BitValue b) ->
  level_at es (base + 2 * Z.of_nat k) = Some DHT_DATA_LOW
  /\ level_at es (base + 2 * Z.of_nat k + 1) = Some DHT_DATA_HIGH
  /\ high_duration es base k <= 80
  /\ b = (35 <? high_duration es base k).
Proof.
  unfold bit_reading, level_at, high_duration.
  destruct (edge_at es (base + 2 * Z.of_nat k)) as [e0|]; [|discriminate].
  destruct (edge_at es (base + 2 * Z.of_nat k + 1)) as [e1|]; [|discriminate].
  destruct (edge_at es (base + 2 * Z.of_nat k + 2)) as [e2|]; [|discriminate].
  simpl. unfold classify_bit.
  destruct (level e0), (level e1); try discriminate.
  destruct (Z.ltb_spec 80 (u32 (timestamp e2 - timestamp e1))); [discriminate|].
  intros [= <-]. repeat split; trivial.
Qed.

(** Most significant bit first: bit [7 - k] of the byte is the [k]-th bit
    on the wire. *)
Lemma window_value_testbit (k : nat) :
  follows_pattern es base = true -> (k < 8)%nat ->
  Z.testbit (window_value es base) (7 - Z.of_nat k) = (35 <? high_duration es base k).
Proof.
  unfold follows_pattern, window_value, decode_byte_spec. intros Hp Hk.
  destruct (window_readings es base 0 8) as [rs|] eqn:Hrs; [|discriminate].
  assert (Hl := window_readings_length _ _ _ Hrs).
  assert (Hr := window_readings_lookup es base 8 0 rs Hrs k Hk). simpl in Hr.
  destruct (rs !! k) as [r|] eqn:Hrk; [|apply lookup_ge_None in Hrk; lia].
  assert (Hval : is_value r = true).
  { rewrite forallb_forall in Hp. apply Hp.
    apply list_elem_of_In. apply list_elem_of_lookup. eauto. }
  destruct r as [| |b]; try discriminate.
  symmetry in Hr. destruct (bit_reading_value k b Hr) as (_ & _ & _ & ->).
  simpl.
  assert (Ht := assemble_testbit rs 7 k _ ltac:(lia) Hp Hrk).
  now destruct (assemble rs 7).
Qed.

(** [follows_pattern] spelled out on the edges: each of the eight bits has a
    low edge, then a high edge, then a third edge at most 80 us later. *)
Lemma follows_pattern_edges :
  follows_pattern es base = true ->
  forall k : nat, (k < 8)%nat ->
    level_at es (base + 2 * Z.of_nat k) = Some DHT_DATA_LOW
    /\ level_at es (base + 2 * Z.of_nat k + 1) = Some DHT_DATA_HIGH
    /\ is_Some (edge_at es (base + 2 * Z.of_nat k + 2))
    /\ high_duration es base k <= 80.
Proof.
  unfold follows_pattern. intros Hp k Hk.
  destruct (window_readings es base 0 8) as [rs|] eqn:Hrs; [|discriminate].
  assert (Hl := window_readings_length _ _ _ Hrs).
  assert (Hr := window_readings_lookup es base 8 0 rs Hrs k Hk). simpl in Hr.
  destruct (rs !! k) as [r|] eqn:Hrk; [|apply lookup_ge_None in Hrk; lia].
  assert (Hval : is_value r = true).
  { rewrite forallb_forall in Hp. apply Hp.
    apply list_elem_of_In. apply list_elem_of_lookup. eauto. }
  destruct r as [| |b]; try discriminate.
  symmetry in Hr.
  destruct (bit_reading_value k b Hr) as (H0 & H1 & Hd & _).
  destruct (bit_reading_inv es base k _ Hr) as (e0 & e1 & e2 & _ & _ & H2 & _).
  rewrite Z.add_assoc in H2. repeat split; try assumption. now exists e2.
Qed.

Lemma window_readings_values :
  forall n k : nat,
    (forall j : nat, (k <= j < k + n)%nat ->
       level_at es (base + 2 * Z.of_nat j) = Some DHT_DATA_LOW
       /\ level_at es (base + 2 * Z.of_nat j + 1) = Some DHT_DATA_HIGH
       /\ is_Some (edge_at es (base + 2 * Z.of_nat j + 2))
       /\ high_duration es base j <= 80) ->
    exists rs, window_readings es base k n = Some rs /\ forallb is_value rs = true.
Proof.
  induction n as [|n IH]; intros k Hall; [now exists []|].
  destruct (IH (S k)) as (rs & Hrs & Hv); [intros j Hj; apply Hall; lia|].
  destruct (Hall k) as (H0 & H1 & [e2 H2] & Hd); [lia|].
  unfold level_at, high_duration in *.
  destruct (edge_at es (base + 2 * Z.of_nat k)) as [e0|] eqn:E0; [|discriminate].
  destruct (edge_at es (base + 2 * Z.of_nat k + 1)) as [e1|] eqn:E1; [|discriminate].
  rewrite H2 in Hd. simpl in H0, H1. injection H0 as L0. injection H1 as L1.
  exists (BitValue (35 <? u32 (timestamp e2 - timestamp e1)) :: rs).
  cbn [window_readings]. unfold bit_reading. rewrite E0, E1, H2, Hrs. simpl.
  unfold classify_bit. rewrite L0, L1.
  destruct (Z.ltb_spec 80 (u32 (timestamp e2 - timestamp e1))); [lia|].
  simpl. now rewrite Hv.
Qed.

Lemma follows_pattern_iff :
  follows_pattern es base = true
  <-> forall k : nat, (k < 8)%nat ->
        level_at es (base + 2 * Z.of_nat k) = Some DHT_DATA_LOW
        /\ level_at es (base + 2 * Z.of_nat k + 1) = Some DHT_DATA_HIGH
        /\ is_Some (edge_at es (base + 2 * Z.of_nat k + 2))
        /\ high_duration es base k <= 80.
Proof.
  split; [apply follows_pattern_edges|].
  intros Hall. unfold follows_pattern.
  destruct (window_readings_values 8 0) as (rs & -> & Hv); [|exact Hv].
  intros j Hj. apply Hall. lia.
Qed.

End Windows.

(** *** Edges the decoder does not look at *)

Section WithLevel.

Variable es : list DhtEdge.
Variable i : nat.
Variable lvl : DhtDataLevel.

Lemma edge_at_with_level_ne (j : Z) :
  j <> Z.of_nat i -> edge_at (with_level i lvl es) j = edge_at es j.
Proof.
  intros Hne. unfold edge_at, with_level.
  destruct (Z.leb_spec 0 j); [|reflexivity].
  apply list_lookup_alter_ne. lia.
Qed.

Lemma edge_at_with_level_eq :
  edge_at (with_level i lvl es) (Z.of_nat i) = set_level lvl <$> edge_at es (Z.of_nat i).
Proof.
  unfold edge_at, with_level.
  destruct (Z.leb_spec 0 (Z.of_nat i)); [|lia].
  rewrite Nat2Z.id. apply list_lookup_alter_eq.
Qed.

(** Only the timestamp of the third edge of a triplet matters. *)
Lemma bit_reading_with_level (base : Z) (k : nat) :
  Z.of_nat i <> base + 2 * Z.of_nat k ->
  Z.of_nat i <> base + 2 * Z.of_nat k + 1 ->
  bit_reading (with_level i lvl es) base k = bit_reading es base k.
Proof.
  intros H0 H1. unfold bit_reading.
  rewrite (edge_at_with_level_ne (base + 2 * Z.of_nat k)) by lia.
  rewrite (edge_at_with_level_ne (base + 2 * Z.of_nat k + 1)) by lia.
  destruct (edge_at es (base + 2 * Z.of_nat k)) as [e0|]; [|reflexivity].
  destruct (edge_at es (base + 2 * Z.of_nat k + 1)) as [e1|]; [|reflexivity].
  simpl.
  destruct (Z.eq_dec (base + 2 * Z.of_nat k + 2) (Z.of_nat i)) as [->|Hne].
  - rewrite edge_at_with_level_eq.
    now destruct (edge_at es (Z.of_nat i)).
  - now rewrite edge_at_with_level_ne.
Qed.

Lemma window_readings_with_level (base : Z) :
  (Z.of_nat i < base \/ base + 16 <= Z.of_nat i) ->
  forall n k : nat,
    (k + n <= 8)%nat ->
    window_readings (with_level i lvl es) base k n = window_readings es base k n.
Proof.
  intros Hout. induction n as [|n IH]; intros k Hk; [reflexivity|].
  cbn [window_readings].
  rewrite bit_reading_with_level by lia.
  now rewrite IH by lia.
Qed.

(** Changing the level of an edge outside the sixteen edges of a window
    leaves the decoded byte and its status as they were. *)
Lemma decode_with_level (base : Z) :
  0 <= base -> base + 16 < Z.of_nat (length es) ->
  (Z.of_nat i < base \/ base + 16 <= Z.of_nat i) ->
  dht_decode_byte (with_level i lvl es) base = dht_decode_byte es base.
Proof.
  intros Hb Hl Hout.
  destruct (decode_byte_spec_defined es base Hb Hl) as [r Hr].
  rewrite (decode_byte_spec_sound es base r Hr).
  apply decode_byte_spec_sound.
  unfold decode_byte_spec in *.
  now rewrite window_readings_with_level.
Qed.

End WithLevel.

(** ** Reading the data out *)

Section GetData.

Variable self : Dht.
Variable now : Z.
Variable data : DhtData.
Hypothesis Hready : current_edge self = DHT_EDGES_NUMBER.

Lemma check_status_ready : dht_check_status self now = Some DHT_DATA_READY.
Proof. unfold dht_check_status. now rewrite Hready. Qed.

(** A failure of the humidity byte is returned as it is. *)
Lemma get_data_humidity_failure (st : DhtStatus) (b : Z) :
  dht_decode_byte (edges self) DHT_INTEGRAL_RH_EDGES_INDEX = Some (st, b) ->
  st <> DHT_OK ->
  exists d, dht_get_data self now data = Some (st, d).
Proof.
  intros Hd Hst. unfold dht_get_data. rewrite check_status_ready. simpl.
  rewrite Hd. simpl.
  destruct st; try congruence; simpl; eauto.
Qed.

(** So is a failure of the temperature byte, once the humidity byte is
    decoded. *)
Lemma get_data_temperature_failure (h : Z) (st : DhtStatus) (b : Z) :
  dht_decode_byte (edges self) DHT_INTEGRAL_RH_EDGES_INDEX = Some (DHT_OK, h) ->
  dht_decode_byte (edges self) DHT_INTEGRAL_T_EDGES_INDEX = Some (st, b) ->
  st <> DHT_OK ->
  exists d, dht_get_data self now data = Some (st, d).
Proof.
  intros Hh Hd Hst. unfold dht_get_data. rewrite check_status_ready. simpl.
  rewrite Hh. simpl. rewrite Hd. simpl.
  destruct st; try congruence; simpl; eauto.
Qed.

(** With both bytes decoded, only the comparison of the checksum decides;
    the status of the checksum byte is dropped. *)
Lemma get_data_checksum (h t c : Z) (st : DhtStatus) :
  dht_decode_byte (edges self) DHT_INTEGRAL_RH_EDGES_INDEX = Some (DHT_OK, h) ->
  dht_decode_byte (edges self) DHT_INTEGRAL_T_EDGES_INDEX = Some (DHT_OK, t) ->
  dht_decode_byte (edges self) DHT_CHECKSUM_EDGES_INDEX = Some (st, c) ->
  dht_get_data self now data
  = Some (if (h + 0 + t + 0) mod 256 =? c then DHT_OK else DHT_ERR_CRC,
          mkData (mkReading h 0) (mkReading t 0) c).
Proof.
  intros Hh Ht Hc. unfold dht_get_data. rewrite check_status_ready. simpl.
  rewrite Hh. simpl. rewrite Ht. simpl. rewrite Hc. simpl.
  unfold dht_calculate_data_crc. simpl. rewrite land_255.
  now destruct ((h + 0 + t + 0) mod 256 =? c).
Qed.

End GetData.

(** C1 (amended). For every complete capture whose humidity-integral,
    temperature-integral and checksum windows follow the level and duration
    pattern (each bit a low edge, then a high edge lasting at most 80 us),
    and whose checksum window spells the sum of the two integral bytes modulo
    256, [dht_get_data] returns [DHT_OK]; the two integral fields hold the
    bytes of their windows, most significant bit first with a bit set exactly
    when its high phase lasts more than 35 us, both decimal fields are 0, and
    the checksum field equals the sum of the four fields modulo 256. *)
Theorem get_data_pattern_timeline (self : Dht) (now : Z) (data : DhtData) :
  current_edge self = DHT_EDGES_NUMBER ->
  follows_pattern (edges self) DHT_INTEGRAL_RH_EDGES_INDEX = true ->
  follows_pattern (edges self) DHT_INTEGRAL_T_EDGES_INDEX = true ->
  follows_pattern (edges self) DHT_CHECKSUM_EDGES_INDEX = true ->
  window_value (edges self) DHT_CHECKSUM_EDGES_INDEX
  = (window_value (edges self) DHT_INTEGRAL_RH_EDGES_INDEX
     + window_value (edges self) DHT_INTEGRAL_T_EDGES_INDEX) mod 256 ->
  exists h t c : Z,
    dht_get_data self now data = Some (DHT_OK, mkData (mkReading h 0) (mkReading t 0) c)
    /\ 0 <= h < 256 /\ 0 <= t < 256
    /\ (forall k : nat, (k < 8)%nat ->
          Z.testbit h (7 - Z.of_nat k)
          = (35 <? high_duration (edges self) DHT_INTEGRAL_RH_EDGES_INDEX k))
    /\ (forall k : nat, (k < 8)%nat ->
          Z.testbit t (7 - Z.of_nat k)
          = (35 <? high_duration (edges self) DHT_INTEGRAL_T_EDGES_INDEX k))
    /\ c = (h + 0 + t + 0) mod 256.
Proof.
  intros Hready Hh Ht Hc Hsum.
  exists (window_value (edges self) DHT_INTEGRAL_RH_EDGES_INDEX),
         (window_value (edges self) DHT_INTEGRAL_T_EDGES_INDEX),
         (window_value (edges self) DHT_CHECKSUM_EDGES_INDEX).
  split; [|split; [|split; [|split; [|split]]]].
  - rewrite (get_data_checksum self now data Hready _ _ _ DHT_OK
               (decode_pattern _ _ Hh) (decode_pattern _ _ Ht) (decode_pattern _ _ Hc)).
    rewrite Hsum, !Z.add_0_r. now rewrite Z.eqb_refl.
  - apply window_value_range.
  - apply window_value_range.
  - intros k Hk. now apply window_value_testbit.
  - intros k Hk. now apply window_value_testbit.
  - rewrite Hsum. f_equal. lia.
Qed.

(** The theorem applies to the scenario capture. *)
Lemma get_data_pattern_timeline_witness :
  exists h t c : Z,
    dht_get_data (ready scenario_edges) 0 blank_data
    = Some (DHT_OK, mkData (mkReading h 0) (mkReading t 0) c)
    /\ 0 <= h < 256 /\ 0 <= t < 256
    /\ (forall k : nat, (k < 8)%nat ->
          Z.testbit h (7 - Z.of_nat k)
          = (35 <? high_duration scenario_edges DHT_INTEGRAL_RH_EDGES_INDEX k))
    /\ (forall k : nat, (k < 8)%nat ->
          Z.testbit t (7 - Z.of_nat k)
          = (35 <? high_duration scenario_edges DHT_INTEGRAL_T_EDGES_INDEX k))
    /\ c = (h + 0 + t + 0) mod 256.
Proof.
  apply (get_data_pattern_timeline (ready scenario_edges) 0 blank_data);
    vm_compute; reflexivity.
Defined.

(** The scenario of the specification: humidity 44, temperature 25, checksum
    69 decode to exactly these values, with status [DHT_OK]. *)
Example scenario_decodes :
  length scenario_edges = 84%nat
  /\ dht_get_data (ready scenario_edges) 0 blank_data
     = Some (DHT_OK, mkData (mkReading 44 0) (mkReading 25 0) 69).
Proof. split; vm_compute; reflexivity. Qed.

(** Two captures in which every bit of every byte follows the pattern and
    that [dht_get_data] rejects: one whose checksum byte is the sum of the
    four bytes on the wire, the temperature-decimal byte being 3, and one
    whose checksum byte is 0. *)
Lemma pattern_timeline_rejected :
  pattern_timeline fractional_edges = true
  /\ dht_get_data (ready fractional_edges) 0 blank_data
     = Some (DHT_ERR_CRC, mkData (mkReading 44 0) (mkReading 25 0) 72)
  /\ pattern_timeline mismatch_edges = true
  /\ dht_get_data (ready mismatch_edges) 0 blank_data
     = Some (DHT_ERR_CRC, mkData (mkReading 44 0) (mkReading 25 0) 0).
Proof. repeat split; vm_compute; reflexivity. Qed.

(** C7. Once the humidity-integral and temperature-integral bytes are
    decoded, [dht_get_data] compares the checksum byte with the sum of the
    four data fields modulo 256 and returns [DHT_ERR_CRC] when they differ,
    [DHT_OK] when they agree; the comparison is made whatever status [st]
    the decoding of the checksum byte itself reported. *)
Theorem get_data_checksum_rule (self : Dht) (now : Z) (data : DhtData)
        (h t c : Z) (st : DhtStatus) :
  current_edge self = DHT_EDGES_NUMBER ->
  dht_decode_byte (edges self) DHT_INTEGRAL_RH_EDGES_INDEX = Some (DHT_OK, h) ->
  dht_decode_byte (edges self) DHT_INTEGRAL_T_EDGES_INDEX = Some (DHT_OK, t) ->
  dht_decode_byte (edges self) DHT_CHECKSUM_EDGES_INDEX = Some (st, c) ->
  exists d : DhtData,
    integral (humidity d) = h /\ decimal (humidity d) = 0
    /\ integral (temperature d) = t /\ decimal (temperature d) = 0
    /\ crc d = c
    /\ dht_get_data self now data
       = Some (if crc d =? (integral (humidity d) + decimal (humidity d)
                            + integral (temperature d) + decimal (temperature d)) mod 256
               then DHT_OK else DHT_ERR_CRC, d).
Proof.
  intros Hready Hh Ht Hc.
  exists (mkData (mkReading h 0) (mkReading t 0) c). simpl.
  repeat split.
  rewrite (get_data_checksum self now data Hready h t c st Hh Ht Hc).
  now rewrite Z.eqb_sym.
Qed.

(** The checksum byte fails to decode ([DHT_ERR_SEQUENCE_INVALID], partial
    value 0) and the comparison is still what decides. *)
Lemma get_data_checksum_rule_witness :
  exists d : DhtData,
    integral (humidity d) = 44 /\ decimal (humidity d) = 0
    /\ integral (temperature d) = 25 /\ decimal (temperature d) = 0
    /\ crc d = 0
    /\ dht_get_data (ready broken_checksum_edges) 0 blank_data
       = Some (if crc d =? (integral (humidity d) + decimal (humidity d)
                            + integral (temperature d) + decimal (temperature d)) mod 256
               then DHT_OK else DHT_ERR_CRC, d).
Proof.
  apply (get_data_checksum_rule (ready broken_checksum_edges) 0 blank_data
           44 25 0 DHT_ERR_SEQUENCE_INVALID);
    vm_compute; reflexivity.
Defined.

(** A checksum byte that fails to decode does not make [dht_get_data] fail
    when the bits read before the failure happen to match the sum. *)
Example broken_checksum_accepted :
  dht_decode_byte zero_broken_checksum_edges DHT_CHECKSUM_EDGES_INDEX
  = Some (DHT_ERR_SEQUENCE_INVALID, 0)
  /\ dht_get_data (ready zero_broken_checksum_edges) 0 blank_data
     = Some (DHT_OK, mkData (mkReading 0 0) (mkReading 0 0) 0).
Proof. split; vm_compute; reflexivity. Qed.

Example broken_checksum_rejected :
  dht_decode_byte broken_checksum_edges DHT_CHECKSUM_EDGES_INDEX
  = Some (DHT_ERR_SEQUENCE_INVALID, 0)
  /\ dht_get_data (ready broken_checksum_edges) 0 blank_data
     = Some (DHT_ERR_CRC, mkData (mkReading 44 0) (mkReading 25 0) 0).
Proof. split; vm_compute; reflexivity. Qed.

(** *** A high edge where a low one is expected *)

Lemma bits_before_values (es : list DhtEdge) (base : Z) (k j : nat) :
  bits_before es base k = true -> (j < k)%nat ->
  exists b, bit_reading es base j = Some (BitValue b).
Proof.
  unfold bits_before. rewrite forallb_forall. intros Hall Hj.
  assert (Hr : reads_value es base j = true)
    by (apply Hall, in_seq; lia).
  unfold reads_value in Hr.
  destruct (bit_reading es base j) as [[| |b]|]; try discriminate. eauto.
Qed.

Lemma decode_wrong_level (es : list DhtEdge) (base : Z) (k : nat) :
  0 <= base -> base + 16 < Z.of_nat (length es) -> (k < 8)%nat ->
  bits_before es base k = true ->
  level_at es (base + 2 * Z.of_nat k) = Some DHT_DATA_HIGH ->
  exists b, dht_decode_byte es base = Some (DHT_ERR_SEQUENCE_INVALID, b).
Proof.
  intros Hb Hl Hk Hpre Hhigh.
  destruct (window_readings_defined es base 8 0 Hb) as (rs & Hrs & Hlen); [lia|].
  assert (Hlook := window_readings_lookup es base 8 0 rs Hrs). simpl in Hlook.
  assert (Hst : fst (assemble rs 7) = DHT_ERR_SEQUENCE_INVALID).
  { apply (assemble_first_invalid rs 7 k).
    - intros j Hj. destruct (bits_before_values es base k j Hpre Hj) as [b Hbj].
      exists b. rewrite Hlook by lia. exact Hbj.
    - rewrite Hlook by lia.
      destruct (bit_reading es base k) as [r|] eqn:Hr.
      + destruct (bit_reading_inv es base k r Hr) as (e0 & e1 & e2 & H0 & _ & _ & ->).
        unfold level_at in Hhigh. rewrite H0 in Hhigh. simpl in Hhigh.
        injection Hhigh as Hlvl. unfold classify_bit. now rewrite Hlvl.
      + rewrite <- Hlook in Hr by lia. apply lookup_ge_None in Hr. lia. }
  exists (snd (assemble rs 7)).
  apply decode_byte_spec_sound. unfold decode_byte_spec. rewrite Hrs. simpl.
  rewrite <- Hst. now destruct (assemble rs 7).
Qed.

(** The decimal windows are not decoded: the level of an edge inside one of
    them does not reach the result. *)
Lemma get_data_ignores_decimal_levels (self : Dht) (now : Z) (data : DhtData)
      (i : nat) (lvl : DhtDataLevel) :
  length (edges self) = 84%nat ->
  (18 <= i < 34)%nat \/ (50 <= i < 66)%nat ->
  dht_get_data (mkDht (with_level i lvl (edges self)) (current_edge self)) now data
  = dht_get_data self now data.
Proof.
  intros Hlen Hi.
  assert (Hcs : dht_check_status (mkDht (with_level i lvl (edges self)) (current_edge self)) now
                = dht_check_status self now).
  { unfold dht_check_status. simpl.
    destruct (current_edge self =? DHT_NO_DATA_AVAILABLE); [reflexivity|].
    destruct (Z.ltb_spec (current_edge self) DHT_EDGES_NUMBER); [|reflexivity].
    unfold DHT_EDGES_NUMBER in *.
    destruct (Z.eq_dec (current_edge self - 1) (Z.of_nat i)) as [E|E].
    - rewrite E, edge_at_with_level_eq. now destruct (edge_at (edges self) (Z.of_nat i)).
    - now rewrite edge_at_with_level_ne. }
  unfold dht_get_data. rewrite Hcs. simpl edges.
  unfold DHT_INTEGRAL_RH_EDGES_INDEX, DHT_INTEGRAL_T_EDGES_INDEX, DHT_CHECKSUM_EDGES_INDEX.
  rewrite !decode_with_level by lia.
  reflexivity.
Qed.

(** C8 (amended). In a complete capture of 84 edges, a high edge where a
    bit's low edge is expected makes [dht_get_data] return
    [DHT_ERR_SEQUENCE_INVALID], not [DHT_ERR_CRC], when it lies in the
    humidity-integral window (offset 2), or in the temperature-integral
    window (offset 34) of a capture whose humidity-integral window is well
    formed, the bits before it in its window being well formed.  The two
    decimal windows (offsets 18 and 50) are not decoded: the level of an edge
    there does not change the result of [dht_get_data]. *)
Theorem get_data_wrong_level (self : Dht) (now : Z) (data : DhtData) (k : nat) :
  current_edge self = DHT_EDGES_NUMBER ->
  length (edges self) = 84%nat ->
  (k < 8)%nat ->
  (bits_before (edges self) DHT_INTEGRAL_RH_EDGES_INDEX k = true ->
   level_at (edges self) (DHT_INTEGRAL_RH_EDGES_INDEX + 2 * Z.of_nat k) = Some DHT_DATA_HIGH ->
   exists d, dht_get_data self now data = Some (DHT_ERR_SEQUENCE_INVALID, d))
  /\ (follows_pattern (edges self) DHT_INTEGRAL_RH_EDGES_INDEX = true ->
      bits_before (edges self) DHT_INTEGRAL_T_EDGES_INDEX k = true ->
      level_at (edges self) (DHT_INTEGRAL_T_EDGES_INDEX + 2 * Z.of_nat k) = Some DHT_DATA_HIGH ->
      exists d, dht_get_data self now data = Some (DHT_ERR_SEQUENCE_INVALID, d))
  /\ (forall (i : nat) (lvl : DhtDataLevel),
        (18 <= i < 34)%nat \/ (50 <= i < 66)%nat ->
        dht_get_data (mkDht (with_level i lvl (edges self)) (current_edge self)) now data
        = dht_get_data self now data).
Proof.
  intros Hready Hlen Hk. split; [|split].
  - intros Hpre Hhigh.
    destruct (decode_wrong_level (edges self) DHT_INTEGRAL_RH_EDGES_INDEX k) as [b Hd];
      try assumption; try (unfold DHT_INTEGRAL_RH_EDGES_INDEX; lia).
    now apply (get_data_humidity_failure self now data Hready _ b Hd).
  - intros Hh Hpre Hhigh.
    destruct (decode_wrong_level (edges self) DHT_INTEGRAL_T_EDGES_INDEX k) as [b Hd];
      try assumption; try (unfold DHT_INTEGRAL_T_EDGES_INDEX; lia).
    now apply (get_data_temperature_failure self now data Hready _ _ b
                 (decode_pattern _ _ Hh) Hd).
  - intros i lvl Hi. now apply get_data_ignores_decimal_levels.
Qed.

Lemma get_data_wrong_level_witness :
  (exists d, dht_get_data (ready broken_humidity_edges) 0 blank_data
             = Some (DHT_ERR_SEQUENCE_INVALID, d))
  /\ (exists d, dht_get_data (ready broken_temperature_edges) 0 blank_data
                = Some (DHT_ERR_SEQUENCE_INVALID, d))
  /\ dht_get_data (ready (with_level 18 DHT_DATA_HIGH scenario_edges)) 0 blank_data
     = dht_get_data (ready scenario_edges) 0 blank_data.
Proof.
  split; [|split].
  - destruct (get_data_wrong_level (ready broken_humidity_edges) 0 blank_data 2)
      as (Hhumidity & _ & _); [reflexivity | reflexivity | lia |].
    apply Hhumidity; vm_compute; reflexivity.
  - destruct (get_data_wrong_level (ready broken_temperature_edges) 0 blank_data 2)
      as (_ & Htemperature & _); [reflexivity | reflexivity | lia |].
    apply Htemperature; vm_compute; reflexivity.
  - destruct (get_data_wrong_level (ready scenario_edges) 0 blank_data 0)
      as (_ & _ & Hdecimal); [reflexivity | reflexivity | lia |].
    apply (Hdecimal 18%nat DHT_DATA_HIGH). lia.
Defined.

(** The first edge of the humidity-decimal window, low in the scenario
    capture, is forced high; the capture still decodes with [DHT_OK]. *)
Lemma wrong_level_in_decimal_window_accepted :
  length broken_humidity_decimal_edges = 84%nat
  /\ level_at scenario_edges DHT_DECIMAL_RH_EDGES_INDEX = Some DHT_DATA_LOW
  /\ level_at broken_humidity_decimal_edges DHT_DECIMAL_RH_EDGES_INDEX = Some DHT_DATA_HIGH
  /\ dht_get_data (ready broken_humidity_decimal_edges) 0 blank_data
     = Some (DHT_OK, mkData (mkReading 44 0) (mkReading 25 0) 69).
Proof. repeat split; vm_compute; reflexivity. Qed.

(** ** Capture path *)

Section Capture.

Lemma edge_store_defined (es : list DhtEdge) (i : Z) (e : DhtEdge) :
  0 <= i < Z.of_nat (length es) ->
  edge_store es i e = Some (<[Z.to_nat i := e]> es).
Proof.
  intros Hi. unfold edge_store.
  destruct (Z.leb_spec 0 i); [|lia].
  destruct (Z.ltb_spec i (Z.of_nat (length es))); [reflexivity|lia].
Qed.

Lemma edge_store_inv (es es' : list DhtEdge) (i : Z) (e : DhtEdge) :
  edge_store es i e = Some es' ->
  es' = <[Z.to_nat i := e]> es /\ 0 <= i < Z.of_nat (length es).
Proof.
  unfold edge_store.
  destruct (Z.leb_spec 0 i); [|discriminate].
  destruct (Z.ltb_spec i (Z.of_nat (length es))); [|discriminate].
  intros [= <-]. split; [reflexivity|lia].
Qed.

Lemma handler_guard (self : Dht) (lvl : DhtDataLevel) :
  ((current_edge self =? 0) && level_eqb lvl DHT_DATA_LOW
   || (current_edge self >? 0) && (current_edge self <? DHT_EDGES_NUMBER)) = true
  <-> records self lvl.
Proof.
  unfold records. rewrite orb_true_iff, !andb_true_iff, Z.eqb_eq, Z.gtb_ltb, !Z.ltb_lt.
  destruct lvl; simpl; intuition congruence.
Qed.

(** What one invocation of the handler does, by the guard. *)
Lemma handler_records (self : Dht) (lvl : DhtDataLevel) (now : Z) :
  length (edges self) = 84%nat -> records self lvl ->
  dht_handle_data_line_edge self lvl now
  = Some (mkDht (<[Z.to_nat (current_edge self) := mkEdge now lvl]> (edges self))
                (current_edge self + 1),
          if current_edge self + 1 =? DHT_EDGES_NUMBER
          then [hal_notify_sequence_completed] else []).
Proof.
  intros Hlen Hrec. unfold dht_handle_data_line_edge.
  rewrite (proj2 (handler_guard self lvl) Hrec).
  rewrite edge_store_defined; [reflexivity|].
  unfold records, DHT_EDGES_NUMBER in Hrec. lia.
Qed.

Lemma handler_discards (self : Dht) (lvl : DhtDataLevel) (now : Z) :
  ~ records self lvl ->
  dht_handle_data_line_edge self lvl now = Some (self, []).
Proof.
  intros Hrec. unfold dht_handle_data_line_edge.
  destruct ((current_edge self =? 0) && level_eqb lvl DHT_DATA_LOW
            || (current_edge self >? 0) && (current_edge self <? DHT_EDGES_NUMBER)) eqn:G;
    [|reflexivity].
  now apply handler_guard in G.
Qed.

Lemma records_dec (self : Dht) (lvl : DhtDataLevel) :
  records self lvl \/ ~ records self lvl.
Proof.
  rewrite <- handler_guard.
  destruct ((current_edge self =? 0) && level_eqb lvl DHT_DATA_LOW
            || (current_edge self >? 0) && (current_edge self <? DHT_EDGES_NUMBER));
    [now left | now right].
Qed.

(** The cursor moves by at most one, never past the capacity; the buffer
    keeps its size; the notification is sent on the step that reaches the
    capacity and on no other. *)
Lemma handler_step (self self' : Dht) (lvl : DhtDataLevel) (now : Z) (log : list HalCall) :
  dht_handle_data_line_edge self lvl now = Some (self', log) ->
  length (edges self') = length (edges self)
  /\ (self' = self
      \/ (0 <= current_edge self < DHT_EDGES_NUMBER
          /\ current_edge self' = current_edge self + 1))
  /\ notifications log
     = (if (current_edge self <? DHT_EDGES_NUMBER) && (current_edge self' =? DHT_EDGES_NUMBER)
        then 1%nat else 0%nat).
Proof.
  unfold dht_handle_data_line_edge.
  destruct ((current_edge self =? 0) && level_eqb lvl DHT_DATA_LOW
            || (current_edge self >? 0) && (current_edge self <? DHT_EDGES_NUMBER)) eqn:G.
  - apply handler_guard in G.
    destruct (edge_store (edges self) (current_edge self) (mkEdge now lvl)) as [es'|] eqn:Hst;
      [|discriminate].
    apply edge_store_inv in Hst as [-> Hi].
    simpl. intros [= <- <-]. simpl.
    unfold records, DHT_EDGES_NUMBER in *.
    split; [apply length_insert|]. split; [right; lia|].
    destruct (Z.ltb_spec (current_edge self) 84); [|lia].
    now destruct (current_edge self + 1 =? 84).
  - intros [= <- <-]. split; [reflexivity|]. split; [now left|].
    unfold DHT_EDGES_NUMBER.
    destruct (Z.ltb_spec (current_edge self) 84), (Z.eqb_spec (current_edge self) 84);
      try reflexivity; lia.
Qed.

Lemma notifications_app (l1 l2 : list HalCall) :
  notifications (l1 ++ l2) = (notifications l1 + notifications l2)%nat.
Proof. unfold notifications. now rewrite filter_app, length_app. Qed.

(** The same over any sequence of edges. *)
Lemma handle_edges_run (evs : list EdgeEvent) :
  forall (self self' : Dht) (log : list HalCall),
    handle_edges self evs = Some (self', log) ->
    length (edges self') = length (edges self)
    /\ current_edge self <= current_edge self'
    /\ (DHT_EDGES_NUMBER <= current_edge self -> current_edge self' = current_edge self)
    /\ (current_edge self <= DHT_EDGES_NUMBER -> current_edge self' <= DHT_EDGES_NUMBER)
    /\ notifications log
       = (if (current_edge self <? DHT_EDGES_NUMBER) && (current_edge self' =? DHT_EDGES_NUMBER)
          then 1%nat else 0%nat).
Proof.
  induction evs as [|ev evs IH]; intros self self' log Hrun.
  - injection Hrun as <- <-. repeat split; try lia.
    unfold DHT_EDGES_NUMBER.
    destruct (Z.ltb_spec (current_edge self) 84), (Z.eqb_spec (current_edge self) 84);
      try reflexivity; lia.
  - cbn [handle_edges] in Hrun.
    destruct (dht_handle_data_line_edge self (ev_level ev) (ev_time ev))
      as [[self1 log1]|] eqn:H1; [|discriminate].
    simpl in Hrun.
    destruct (handle_edges self1 evs) as [[self2 log2]|] eqn:H2; [|discriminate].
    simpl in Hrun. injection Hrun as <- <-.
    apply handler_step in H1 as (Hl1 & Hc1 & Hn1).
    apply IH in H2 as (Hl2 & Hm2 & Hs2 & Hb2 & Hn2).
    rewrite notifications_app, Hn1, Hn2.
    unfold DHT_EDGES_NUMBER in *.
    assert (Hc : current_edge self1 = current_edge self
                 \/ (0 <= current_edge self < 84
                     /\ current_edge self1 = current_edge self + 1))
      by (destruct Hc1 as [->|]; [now left | now right]).
    clear Hc1.
    split; [congruence|]. split; [lia|]. split; [lia|]. split; [lia|].
    destruct (Z.ltb_spec (current_edge self) 84),
             (Z.ltb_spec (current_edge self1) 84),
             (Z.eqb_spec (current_edge self1) 84),
             (Z.eqb_spec (current_edge self2) 84);
      simpl; try reflexivity; lia.
Qed.

Lemma handle_edges_defined (evs : list EdgeEvent) :
  forall self : Dht,
    length (edges self) = 84%nat ->
    exists self' log, handle_edges self evs = Some (self', log).
Proof.
  induction evs as [|ev evs IH]; intros self Hlen; [now eexists _, _|].
  cbn [handle_edges].
  destruct (records_dec self (ev_level ev)) as [Hrec|Hrec].
  - rewrite (handler_records self _ (ev_time ev) Hlen Hrec). simpl.
    edestruct IH as (self' & log & ->); [|simpl; now eexists _, _].
    simpl. now rewrite length_insert.
  - rewrite (handler_discards self _ (ev_time ev) Hrec). simpl.
    destruct (IH self Hlen) as (self' & log & ->). simpl. now eexists _, _.
Qed.

End Capture.

Lemma handler_appends (self : Dht) (lvl : DhtDataLevel) (now : Z) :
  length (edges self) = 84%nat -> records self lvl ->
  exists self',
    dht_handle_data_line_edge self lvl now
    = Some (self', if current_edge self + 1 =? DHT_EDGES_NUMBER
                   then [hal_notify_sequence_completed] else [])
    /\ appended self self' (mkEdge now lvl).
Proof.
  intros Hlen Hrec. eexists. split; [now apply handler_records|].
  assert (Hi : 0 <= current_edge self < 84)
    by (unfold records, DHT_EDGES_NUMBER in Hrec; lia).
  unfold appended. simpl. split; [reflexivity|]. split.
  - unfold edge_at. destruct (Z.leb_spec 0 (current_edge self)); [|lia].
    apply list_lookup_insert_eq. lia.
  - intros j Hj. unfold edge_at. destruct (Z.leb_spec 0 j); [|reflexivity].
    apply list_lookup_insert_ne. lia.
Qed.

(** The contract of the capture path on one invocation, and the count of
    notifications over a run of invocations between two writes of the cursor
    by the foreground code.  With the cursor at 0 the handler records the
    sample (the line level and the clock value) when the level is low and
    discards it when the level is high; with the cursor strictly between 0
    and 84 it always records; with the cursor at the no-data value -1 or at
    84 or above it discards.  The completion notification is sent by the
    invocation that moves the cursor to 84 and by no other. *)
Theorem handle_data_line_edge_contract
        (self : Dht) (lvl : DhtDataLevel) (now : Z) (evs : list EdgeEvent) :
  length (edges self) = 84%nat ->
  (current_edge self = 0 -> lvl = DHT_DATA_LOW ->
   exists self',
     dht_handle_data_line_edge self lvl now = Some (self', [])
     /\ appended self self' (mkEdge now lvl))
  /\ (current_edge self = 0 -> lvl = DHT_DATA_HIGH ->
      dht_handle_data_line_edge self lvl now = Some (self, []))
  /\ (0 < current_edge self < 84 ->
      exists self',
        dht_handle_data_line_edge self lvl now
        = Some (self', if current_edge self' =? 84 then [hal_notify_sequence_completed] else [])
        /\ appended self self' (mkEdge now lvl))
  /\ (current_edge self = DHT_NO_DATA_AVAILABLE \/ 84 <= current_edge self ->
      dht_handle_data_line_edge self lvl now = Some (self, []))
  /\ (exists self' log,
        handle_edges self evs = Some (self', log)
        /\ notifications log
           = if (current_edge self <? 84) && (current_edge self' =? 84) then 1%nat else 0%nat).
Proof.
  intros Hlen. repeat split.
  - intros Hce ->.
    destruct (handler_appends self DHT_DATA_LOW now Hlen) as (self' & Hh & Happ);
      [left; now split|].
    rewrite Hce in Hh. simpl in Hh. eauto.
  - intros Hce ->. apply handler_discards.
    unfold records, DHT_EDGES_NUMBER. intros [[_ ?]|?]; [discriminate|lia].
  - intros Hce.
    destruct (handler_appends self lvl now Hlen) as (self' & Hh & Happ);
      [right; unfold DHT_EDGES_NUMBER; lia|].
    exists self'. split; [|exact Happ].
    destruct Happ as (-> & _). exact Hh.
  - intros Hce. apply handler_discards.
    unfold records, DHT_EDGES_NUMBER, DHT_NO_DATA_AVAILABLE in *. lia.
  - destruct (handle_edges_defined evs self Hlen) as (self' & log & Hrun).
    exists self', log. split; [exact Hrun|].
    now apply handle_edges_run in Hrun as (_ & _ & _ & _ & Hn).
Qed.

(** The last edge of a capture: recorded at slot 83, with the notification. *)
Lemma handle_data_line_edge_contract_witness :
  exists self',
    dht_handle_data_line_edge (mkDht scenario_edges 83) DHT_DATA_HIGH 5000
    = Some (self', [hal_notify_sequence_completed])
    /\ appended (mkDht scenario_edges 83) self' (mkEdge 5000 DHT_DATA_HIGH).
Proof.
  destruct (handle_data_line_edge_contract (mkDht scenario_edges 83) DHT_DATA_HIGH 5000 []
              eq_refl) as (_ & _ & Hmid & _).
  destruct Hmid as (self' & Hh & Happ); [simpl; lia|].
  exists self'. split; [|exact Happ].
  destruct Happ as (Hce & _). simpl in Hce. rewrite Hce in Hh. exact Hh.
Defined.

(** ** Status query *)

Section Status.

Lemma check_status_no_data (self : Dht) (now : Z) :
  current_edge self = DHT_NO_DATA_AVAILABLE ->
  dht_check_status self now = Some DHT_NO_DATA.
Proof. intros H. unfold dht_check_status. now rewrite H. Qed.

Lemma check_status_fresh (self : Dht) (now : Z) :
  dht_check_status (dht_init self) now = Some DHT_NO_DATA.
Proof. reflexivity. Qed.

(** With at least one edge captured, the status is decided by the time
    elapsed since the last one. *)
Lemma check_status_in_progress (self : Dht) (now : Z) :
  length (edges self) = 84%nat ->
  0 < current_edge self < DHT_EDGES_NUMBER ->
  exists last_edge,
    edge_at (edges self) (current_edge self - 1) = Some last_edge
    /\ dht_check_status self now
       = Some (if u32 (now - timestamp last_edge) <=? DHT_NEW_EDGE_TIMEOUT_US
               then DHT_BUSY else DHT_ERR_TIMEOUT).
Proof.
  unfold DHT_EDGES_NUMBER. intros Hlen Hce.
  assert (He : is_Some (edge_at (edges self) (current_edge self - 1))).
  { unfold edge_at. destruct (Z.leb_spec 0 (current_edge self - 1)); [|lia].
    apply lookup_lt_is_Some. lia. }
  destruct He as [e He]. exists e. split; [exact He|].
  unfold dht_check_status, DHT_NO_DATA_AVAILABLE, DHT_EDGES_NUMBER.
  destruct (Z.eqb_spec (current_edge self) (-1)); [lia|].
  destruct (Z.ltb_spec (current_edge self) 84); [|lia].
  rewrite He. simpl. rewrite Z.gtb_ltb, Z.leb_antisym.
  now destruct (DHT_NEW_EDGE_TIMEOUT_US <? u32 (now - timestamp e)).
Qed.

(** [dht_check_status] never reports no data for a cursor other than -1. *)
Lemma check_status_not_no_data (self : Dht) (now : Z) :
  current_edge self <> DHT_NO_DATA_AVAILABLE ->
  dht_check_status self now <> Some DHT_NO_DATA.
Proof.
  intros Hce. unfold dht_check_status.
  destruct (Z.eqb_spec (current_edge self) DHT_NO_DATA_AVAILABLE); [contradiction|].
  destruct (current_edge self <? DHT_EDGES_NUMBER); [|discriminate].
  destruct (edge_at (edges self) (current_edge self - 1)) as [e|]; simpl; [|discriminate].
  now destruct (u32 (now - timestamp e) >? DHT_NEW_EDGE_TIMEOUT_US).
Qed.

End Status.

(** C3 (the code at the boundary). With the cursor at 0 (armed, no edge
    captured yet) [dht_check_status] reads [edges[-1]], one slot before the
    start of the buffer: the read is outside the array and the call has no
    defined result, whatever the buffer holds and whatever the clock shows. *)
Theorem check_status_cursor_zero_out_of_bounds (es : list DhtEdge) (now : Z) :
  dht_check_status (mkDht es 0) now = None
  /\ edge_at es (0 - 1) = None.
Proof. split; reflexivity. Qed.

(** After an abort of a device that holds a capture, the status query reports
    an attempt in progress or timed out, by the age of edge 0. *)
Example abort_then_check_status :
  dht_check_status (fst (dht_abort_read (ready scenario_edges))) 1050 = Some DHT_BUSY
  /\ dht_check_status (fst (dht_abort_read (ready scenario_edges))) 1101 = Some DHT_ERR_TIMEOUT
  /\ dht_check_status (fst (dht_abort_read (dht_init (ready scenario_edges)))) 1050 = Some DHT_BUSY.
Proof. repeat split; vm_compute; reflexivity. Qed.

(** ** Starting a read *)

Section StartRead.

(** No edge arrives; the polls before [p] read at most 60 us elapsed, [p]
    reads more. *)
Lemma wait_for_ack_timeout (start_time : Z) (p : AckPoll) (rest : list AckPoll) :
  forall (early : list AckPoll) (self : Dht),
    current_edge self = 0 ->
    forallb no_edge (early ++ [p]) = true ->
    forallb (fun q => u32 (poll_time q - start_time) <=? DHT_ACK_TIMEOUT_US) early = true ->
    DHT_ACK_TIMEOUT_US < u32 (poll_time p - start_time) ->
    dht_wait_for_ack self start_time (early ++ p :: rest)
    = Returns (DHT_ERR_TIMEOUT, self, []).
Proof.
  induction early as [|q early IH]; intros self Hce Hquiet Hearly Hlate.
  - simpl in *. unfold no_edge in Hquiet.
    destruct (irq_before_test p); [|discriminate].
    simpl. rewrite Hce. simpl. rewrite Z.gtb_ltb.
    now destruct (Z.ltb_spec DHT_ACK_TIMEOUT_US (u32 (poll_time p - start_time))); [|lia].
  - simpl in Hquiet, Hearly.
    apply andb_true_iff in Hquiet as [Hq Hquiet].
    apply andb_true_iff in Hearly as [Hqt Hearly].
    unfold no_edge in Hq.
    simpl. destruct (irq_before_test q); [|discriminate].
    simpl. rewrite Hce. simpl. rewrite Z.gtb_ltb.
    destruct (Z.ltb_spec DHT_ACK_TIMEOUT_US (u32 (poll_time q - start_time))); [lia|].
    now rewrite IH.
Qed.

(** The acknowledge never comes: [dht_start_read] returns
    [DHT_ERR_TIMEOUT] and leaves the cursor at 1. *)
Lemma start_read_ack_timeout (self : Dht) (start_time : Z)
      (early : list AckPoll) (p : AckPoll) (rest : list AckPoll) :
  forallb no_edge (early ++ [p]) = true ->
  forallb (fun q => u32 (poll_time q - start_time) <=? DHT_ACK_TIMEOUT_US) early = true ->
  DHT_ACK_TIMEOUT_US < u32 (poll_time p - start_time) ->
  dht_start_read self (mkSchedule [] start_time (early ++ p :: rest))
  = Returns (DHT_ERR_TIMEOUT, mkDht (edges self) 1, timeout_log).
Proof.
  intros Hquiet Hearly Hlate. unfold dht_start_read. simpl.
  now rewrite wait_for_ack_timeout.
Qed.

(** Whatever happens during the call, a [dht_start_read] that returns
    [DHT_ERR_TIMEOUT] leaves the cursor at 1. *)
Lemma start_read_timeout_cursor (self self' : Dht) (sched : StartSchedule) (log : list HalCall) :
  dht_start_read self sched = Returns (DHT_ERR_TIMEOUT, self', log) ->
  current_edge self' = 1.
Proof.
  unfold dht_start_read. simpl.
  destruct (handle_edges _ _) as [[self1 log1]|]; [|discriminate].
  destruct (dht_wait_for_ack _ _ _) as [[[st self3] log3]| |]; try discriminate.
  destruct (status_eqb st DHT_ERR_TIMEOUT); [|discriminate].
  now intros [= <- <-].
Qed.

Lemma wait_for_ack_run (start_time : Z) (polls : list AckPoll) :
  forall (self self' : Dht) (st : DhtStatus) (log : list HalCall),
    dht_wait_for_ack self start_time polls = Returns (st, self', log) ->
    length (edges self') = length (edges self)
    /\ current_edge self <= current_edge self'
    /\ (current_edge self <= DHT_EDGES_NUMBER -> current_edge self' <= DHT_EDGES_NUMBER)
    /\ ((st = DHT_OK /\ current_edge self' <> 0) \/ st = DHT_ERR_TIMEOUT).
Proof.
  induction polls as [|p polls IH]; intros self self' st log Hw; [discriminate|].
  cbn [dht_wait_for_ack] in Hw.
  destruct (handle_edges self (irq_before_test p)) as [[self1 log1]|] eqn:H1;
    [|discriminate].
  apply handle_edges_run in H1 as (Hl1 & Hm1 & _ & Hb1 & _).
  destruct (Z.eqb_spec (current_edge self1) 0) as [Hz|Hnz].
  - destruct (u32 (poll_time p - start_time) >? DHT_ACK_TIMEOUT_US).
    + injection Hw as <- <- <-. repeat split; auto.
    + destruct (dht_wait_for_ack self1 start_time polls) as [[[st2 self2] log2]| |] eqn:H2;
        try discriminate.
      injection Hw as <- <- <-.
      apply IH in H2 as (Hl2 & Hm2 & Hb2 & Hst).
      split; [congruence|]. split; [lia|]. split; [auto|exact Hst].
  - injection Hw as <- <- <-. repeat split; auto.
Qed.

(** After a [dht_start_read] that returns, the cursor is between 1 and 84:
    at least one edge was recorded, or the call aborted. *)
Lemma start_read_run (self self' : Dht) (sched : StartSchedule)
      (st : DhtStatus) (log : list HalCall) :
  dht_start_read self sched = Returns (st, self', log) ->
  length (edges self') = length (edges self)
  /\ 1 <= current_edge self' <= DHT_EDGES_NUMBER.
Proof.
  unfold dht_start_read. simpl.
  destruct (handle_edges _ _) as [[self1 log1]|] eqn:H1; [|discriminate].
  apply handle_edges_run in H1 as (Hl1 & _). simpl in Hl1.
  destruct (dht_wait_for_ack _ _ _) as [[[st3 self3] log3]| |] eqn:H3; try discriminate.
  apply wait_for_ack_run in H3 as (Hl3 & Hm3 & Hb3 & Hst). simpl in *.
  unfold DHT_EDGES_NUMBER in *.
  destruct Hst as [[-> Hnz]| ->]; simpl; intros [= <- <- <-]; simpl.
  - split; [congruence|lia].
  - split; [congruence|lia].
Qed.

End StartRead.

(** C2 (the code after an abort). [dht_abort_read] stores the status
    enumerator [DHT_NO_DATA], whose value is 1, in the cursor, not the
    no-data value -1 that [dht_init] stores and that [dht_check_status]
    tests: after it the cursor is 1 and [dht_check_status] does not return
    [DHT_NO_DATA].  The same holds for the abort inside [dht_start_read]:
    when no edge arrives and the clock reads 61 us after the wait began, the
    call returns [DHT_ERR_TIMEOUT] and leaves the cursor at 1. *)
Theorem abort_read_stores_status_code (self : Dht) (now start_time : Z) :
  current_edge (fst (dht_abort_read self)) = 1
  /\ current_edge (fst (dht_abort_read self)) <> DHT_NO_DATA_AVAILABLE
  /\ current_edge (dht_init self) = DHT_NO_DATA_AVAILABLE
  /\ dht_check_status (fst (dht_abort_read self)) now <> Some DHT_NO_DATA
  /\ dht_start_read self (mkSchedule [] start_time [mkPoll [] (start_time + 61)])
     = Returns (DHT_ERR_TIMEOUT, mkDht (edges self) 1, timeout_log).
Proof.
  split; [reflexivity|]. split; [discriminate|]. split; [reflexivity|]. split.
  - apply check_status_not_no_data. discriminate.
  - apply (start_read_ack_timeout self start_time [] (mkPoll [] (start_time + 61)) []);
      try reflexivity.
    simpl. replace (start_time + 61 - start_time) with 61 by lia. reflexivity.
Qed.

Example start_read_times_out :
  dht_start_read (dht_init (ready scenario_edges))
                 (mkSchedule [] 500 [mkPoll [] 501; mkPoll [] 530; mkPoll [] 561])
  = Returns (DHT_ERR_TIMEOUT, mkDht scenario_edges 1, timeout_log).
Proof. vm_compute. reflexivity. Qed.

(** ** Invariants of the device *)

Section Invariant.

Lemma step_preserves (self self' : Dht) (op : Op) :
  step self op = Returns self' ->
  length (edges self') = length (edges self)
  /\ (current_edge self <= DHT_EDGES_NUMBER -> current_edge self' <= DHT_EDGES_NUMBER)
  /\ (cursor_ok (current_edge self) -> cursor_ok (current_edge self')).
Proof.
  unfold cursor_ok, DHT_EDGES_NUMBER, DHT_NO_DATA_AVAILABLE.
  destruct op as [|sched| |lvl now|now|now data]; simpl.
  - intros [= <-]. simpl. unfold DHT_NO_DATA_AVAILABLE. repeat split; lia.
  - destruct (dht_start_read self sched) as [[[st self1] log]| |] eqn:Hs; try discriminate.
    intros [= <-]. apply start_read_run in Hs as (Hl & Hc).
    unfold DHT_EDGES_NUMBER in Hc. repeat split; [exact Hl|lia|lia].
  - intros [= <-]. simpl. repeat split; lia.
  - destruct (dht_handle_data_line_edge self lvl now) as [[self1 log]|] eqn:Hh;
      [|discriminate].
    intros [= <-]. apply handler_step in Hh as (Hl & Hc & _).
    unfold DHT_EDGES_NUMBER in Hc.
    split; [exact Hl|]. destruct Hc as [->|Hc]; split; lia.
  - destruct (dht_check_status self now); [|discriminate].
    intros [= <-]. auto.
  - destruct (dht_get_data self now data); [|discriminate].
    intros [= <-]. auto.
Qed.

(** A complete capture is left alone by everything but a reset. *)
Lemma step_frozen (self : Dht) (op : Op) :
  length (edges self) = 84%nat ->
  current_edge self = DHT_EDGES_NUMBER ->
  resets_cursor op = false ->
  step self op = Returns self.
Proof.
  intros Hlen Hce Hop.
  destruct op as [|sched| |lvl now|now|now data]; try discriminate; simpl.
  - rewrite handler_discards; [reflexivity|].
    unfold records. rewrite Hce. unfold DHT_EDGES_NUMBER. lia.
  - now rewrite check_status_ready.
  - destruct (decode_defined (edges self) DHT_INTEGRAL_RH_EDGES_INDEX) as [st1 H1];
      [unfold DHT_INTEGRAL_RH_EDGES_INDEX; lia ..|].
    destruct (decode_defined (edges self) DHT_INTEGRAL_T_EDGES_INDEX) as [st2 H2];
      [unfold DHT_INTEGRAL_T_EDGES_INDEX; lia ..|].
    destruct (decode_defined (edges self) DHT_CHECKSUM_EDGES_INDEX) as [st3 H3];
      [unfold DHT_CHECKSUM_EDGES_INDEX; lia ..|].
    unfold dht_get_data. rewrite check_status_ready by exact Hce. simpl.
    rewrite H1. simpl. destruct (status_eqb st1 DHT_OK); simpl; [|reflexivity].
    rewrite H2. simpl. destruct (status_eqb st2 DHT_OK); simpl; [|reflexivity].
    rewrite H3. simpl.
    now destruct (negb _).
Qed.

Lemma reachable_invariant (self : Dht) :
  reachable self ->
  length (edges self) = 84%nat /\ cursor_ok (current_edge self).
Proof.
  induction 1 as [es garbage Hlen|self self' op _ [IHl IHc] Hstep].
  - simpl. split; [exact Hlen|]. now left.
  - apply step_preserves in Hstep as (Hl & _ & Hc).
    split; [congruence|auto].
Qed.

(** On such a device every operation that does not wait returns: the reads
    of [dht_check_status] and of the decoder stay inside the buffer. *)
Lemma step_defined (self : Dht) (op : Op) :
  reachable self ->
  (forall sched, op <> op_start_read sched) ->
  exists self', step self op = Returns self'.
Proof.
  intros Hr Hop. apply reachable_invariant in Hr as (Hlen & Hc).
  unfold cursor_ok, DHT_NO_DATA_AVAILABLE, DHT_EDGES_NUMBER in Hc.
  assert (Hcs : forall now, is_Some (dht_check_status self now)).
  { intros now. destruct Hc as [Hc|Hc].
    - rewrite check_status_no_data by exact Hc. now eexists.
    - destruct (Z.eq_dec (current_edge self) 84) as [E|E].
      + rewrite check_status_ready by exact E. now eexists.
      + destruct (check_status_in_progress self now Hlen) as (e & _ & ->);
          [unfold DHT_EDGES_NUMBER; lia | now eexists]. }
  destruct op as [|sched| |lvl now|now|now data]; simpl.
  - now eexists.
  - now destruct (Hop sched).
  - now eexists.
  - destruct (records_dec self lvl) as [Hrec|Hrec].
    + rewrite (handler_records self lvl now Hlen Hrec). now eexists.
    + rewrite (handler_discards self lvl now Hrec). now eexists.
  - destruct (Hcs now) as [st ->]. now eexists.
  - destruct (Z.eq_dec (current_edge self) 84) as [E|E].
    + exists self. exact (step_frozen self (op_get_data now data) Hlen E eq_refl).
    + unfold dht_get_data. destruct (Hcs now) as [st Hst]. rewrite Hst. simpl.
      assert (Hnr : st <> DHT_DATA_READY).
      { intros ->. unfold dht_check_status in Hst.
        destruct (current_edge self =? DHT_NO_DATA_AVAILABLE); [discriminate|].
        destruct (Z.ltb_spec (current_edge self) DHT_EDGES_NUMBER).
        - destruct (edge_at _ _); simpl in Hst; [|discriminate].
          now destruct (_ >? _).
        - unfold DHT_EDGES_NUMBER in *. lia. }
      destruct st; try contradiction; simpl; now eexists.
Qed.

End Invariant.

(** C5. Every operation keeps the cursor at or below the capacity 84 (and
    the buffer at its 84 slots); and once the cursor equals 84, an operation
    other than the resets ([dht_init], [dht_start_read], [dht_abort_read])
    returns and leaves both the cursor and the recorded edges as they were. *)
Theorem cursor_invariant (self : Dht) (op : Op) :
  length (edges self) = 84%nat ->
  current_edge self <= DHT_EDGES_NUMBER ->
  (forall self' : Dht,
      step self op = Returns self' ->
      current_edge self' <= DHT_EDGES_NUMBER /\ length (edges self') = 84%nat)
  /\ (current_edge self = DHT_EDGES_NUMBER -> resets_cursor op = false ->
      step self op = Returns self).
Proof.
  intros Hlen Hce. split.
  - intros self' Hstep. apply step_preserves in Hstep as (Hl & Hu & _).
    split; [now apply Hu | congruence].
  - intros Hfull Hop. now apply step_frozen.
Qed.

(** An edge arriving after the capture is complete changes nothing. *)
Lemma cursor_invariant_witness :
  (forall self' : Dht,
      step (ready scenario_edges) (op_handle_data_line_edge DHT_DATA_LOW 9000) = Returns self' ->
      current_edge self' <= DHT_EDGES_NUMBER /\ length (edges self') = 84%nat)
  /\ step (ready scenario_edges) (op_handle_data_line_edge DHT_DATA_LOW 9000)
     = Returns (ready scenario_edges).
Proof.
  destruct (cursor_invariant (ready scenario_edges) (op_handle_data_line_edge DHT_DATA_LOW 9000))
    as [Hkeep Hfrozen]; [reflexivity | simpl; unfold DHT_EDGES_NUMBER; lia |].
  split; [exact Hkeep|]. apply Hfrozen; reflexivity.
Defined.

(** ** Diagnostics *)

(** C10. [dht_get_edges_count] returns the cursor when it is positive and 0
    otherwise, in particular 0 for the no-data value -1; the result is never
    negative, and on every device instance a program can hold it is at most
    84. *)
Theorem get_edges_count_spec (self : Dht) :
  int_range (current_edge self) ->
  dht_get_edges_count self = (if 0 <? current_edge self then current_edge self else 0)
  /\ 0 <= dht_get_edges_count self
  /\ (current_edge self = DHT_NO_DATA_AVAILABLE -> dht_get_edges_count self = 0)
  /\ (reachable self -> dht_get_edges_count self <= 84).
Proof.
  unfold int_range, dht_get_edges_count. intros Hint.
  rewrite Z.gtb_ltb.
  assert (Heq : u32 (if 0 <? current_edge self then current_edge self else 0)
                = (if 0 <? current_edge self then current_edge self else 0)).
  { apply u32_small. destruct (Z.ltb_spec 0 (current_edge self)); lia. }
  rewrite Heq. repeat split.
  - destruct (Z.ltb_spec 0 (current_edge self)); lia.
  - intros ->. reflexivity.
  - intros Hr. apply reachable_invariant in Hr as (_ & Hc).
    unfold cursor_ok, DHT_EDGES_NUMBER, DHT_NO_DATA_AVAILABLE in Hc.
    destruct (Z.ltb_spec 0 (current_edge self)); lia.
Qed.

Lemma get_edges_count_spec_witness :
  dht_get_edges_count (dht_init (ready scenario_edges)) = 0
  /\ dht_get_edges_count (dht_init (ready scenario_edges)) <= 84.
Proof.
  destruct (get_edges_count_spec (dht_init (ready scenario_edges)))
    as (_ & _ & Hnone & Hmax);
    [unfold int_range; simpl current_edge; unfold DHT_NO_DATA_AVAILABLE; lia|].
  split; [now apply Hnone|].
  apply Hmax. now apply reachable_init.
Defined.

(** C9 (the code on [DHT_BUSY]). [dht_status_to_str] gives [DHT_BUSY] the
    name of [DHT_NO_DATA]: two different statuses share one string. *)
Theorem status_names_collide :
  DHT_BUSY <> DHT_NO_DATA
  /\ dht_status_to_str DHT_BUSY = "DHT_NO_DATA"%string
  /\ dht_status_to_str DHT_BUSY = dht_status_to_str DHT_NO_DATA.
Proof. repeat split. discriminate. Qed.

(** It is the only collision. *)
Lemma status_names_other_pairs (a b : DhtStatus) :
  dht_status_to_str a = dht_status_to_str b ->
  a = b \/ (a = DHT_BUSY /\ b = DHT_NO_DATA) \/ (a = DHT_NO_DATA /\ b = DHT_BUSY).
Proof. destruct a, b; intros H; try discriminate H; auto. Qed.

(** ** A whole read, end to end *)

(** From an uninitialised structure: [dht_init], a [dht_start_read] that
    sees the acknowledge, the remaining 83 edges through the handler (one
    notification, at the last), then status and data. *)
Example scenario_read :
  exists (armed : Dht) (log : list HalCall),
    dht_start_read (dht_init uninitialised) scenario_schedule = Returns (DHT_OK, armed, log)
    /\ current_edge armed = 1
    /\ handle_edges armed (drop 1 (events_of scenario_edges))
       = Some (ready scenario_edges, [hal_notify_sequence_completed])
    /\ dht_check_status (ready scenario_edges) 5000 = Some DHT_DATA_READY
    /\ dht_get_data (ready scenario_edges) 5000 blank_data
       = Some (DHT_OK, mkData (mkReading 44 0) (mkReading 25 0) 69).
Proof.
  eexists _, _. split; [vm_compute; reflexivity|].
  repeat split; vm_compute; reflexivity.
Qed.

(** The start signal's own edges are recorded when the call begins on an
    aborted device: the cursor is then 1, inside the recording range. *)
Example start_signal_edges_recorded :
  handle_edges (fst (dht_abort_read (dht_init uninitialised)))
               [mkEvent DHT_DATA_LOW 100; mkEvent DHT_DATA_HIGH 18100]
  = Some (mkDht (<[1%nat := mkEdge 100 DHT_DATA_LOW]>
                   (<[2%nat := mkEdge 18100 DHT_DATA_HIGH]> (edges uninitialised))) 3, []).
Proof. vm_compute. reflexivity. Qed.

(** * Further properties of the code *)

(** ** The clock may wrap *)

Section ClockShift.

Variable d : Z.

Lemma u32_sub_shift (a b : Z) : u32 (u32 (a + d) - u32 (b + d)) = u32 (a - b).
Proof.
  unfold u32. rewrite <- Zminus_mod. f_equal. lia.
Qed.

Lemma edge_at_fmap (f : DhtEdge -> DhtEdge) (es : list DhtEdge) (i : Z) :
  edge_at (f <$> es) i = f <$> edge_at es i.
Proof.
  unfold edge_at. destruct (0 <=? i); [apply list_lookup_fmap|reflexivity].
Qed.

Lemma decode_loop_shift (es : list DhtEdge) (base : Z) :
  forall (fuel : nat) (i bit_offset data_byte : Z),
    decode_loop fuel (shift_time d <$> es) base i bit_offset data_byte
    = decode_loop fuel es base i bit_offset data_byte.
Proof.
  induction fuel as [|fuel IH]; intros i bit_offset data_byte; [reflexivity|].
  rewrite !decode_loop_unfold.
  destruct (i <? DHT_DATA_EDGES_PER_BYTE); [|reflexivity].
  rewrite !edge_at_fmap.
  destruct (edge_at es (base + i)) as [e0|]; [|reflexivity]. simpl.
  destruct (level e0); simpl; [|reflexivity].
  destruct (edge_at es (base + (i + 1))) as [e1|]; [|reflexivity]. simpl.
  destruct (level e1); simpl; [reflexivity|].
  destruct (edge_at es (base + (i + 2))) as [e2|]; [|reflexivity]. simpl.
  rewrite u32_sub_shift.
  destruct (u32 (timestamp e2 - timestamp e1) >? DHT_DATA_BIT_1_DURATION_US_MAX);
    [reflexivity|].
  apply IH.
Qed.

Lemma check_status_shift (self : Dht) (now : Z) :
  dht_check_status (shift_clock d self) (u32 (now + d)) = dht_check_status self now.
Proof.
  unfold dht_check_status, shift_clock. simpl.
  destruct (current_edge self =? DHT_NO_DATA_AVAILABLE); [reflexivity|].
  destruct (current_edge self <? DHT_EDGES_NUMBER); [|reflexivity].
  rewrite edge_at_fmap.
  destruct (edge_at (edges self) (current_edge self - 1)) as [e|]; [|reflexivity].
  simpl. now rewrite u32_sub_shift.
Qed.

End ClockShift.

(** X1. Only differences of timestamps are used, computed modulo 2^32: a
    device whose recorded timestamps and whose clock are all moved by the
    same amount [d], wrapping around, gets the same status from
    [dht_check_status] and the same status and data from [dht_get_data]. *)
Theorem clock_shift_invariant (d : Z) (self : Dht) (now : Z) (data : DhtData) :
  dht_check_status (shift_clock d self) (u32 (now + d)) = dht_check_status self now
  /\ dht_get_data (shift_clock d self) (u32 (now + d)) data = dht_get_data self now data.
Proof.
  split; [apply check_status_shift|].
  unfold dht_get_data. rewrite check_status_shift.
  unfold dht_decode_byte, shift_clock. simpl edges.
  now rewrite !decode_loop_shift.
Qed.

(** A capture that straddles the wrap of the clock: the scenario moved to
    start 500 us before 2^32. *)
Example scenario_across_wrap :
  timestamp <$> (shift_time (2 ^ 32 - 1500) <$> scenario_edges) !! 0%nat = Some (2 ^ 32 - 500)
  /\ timestamp <$> (shift_time (2 ^ 32 - 1500) <$> scenario_edges) !! 83%nat = Some 3177
  /\ dht_get_data (shift_clock (2 ^ 32 - 1500) (ready scenario_edges)) 0 blank_data
     = Some (DHT_OK, mkData (mkReading 44 0) (mkReading 25 0) 69).
Proof. repeat split; vm_compute; reflexivity. Qed.

(** ** What [dht_get_data] returns *)

Section GetDataResults.

Lemma decode_loop_result (es : list DhtEdge) (base : Z) :
  forall (fuel : nat) (i bit_offset data_byte : Z) (st : DhtStatus) (b : Z),
    0 <= data_byte < 256 ->
    decode_loop fuel es base i bit_offset data_byte = Some (st, b) ->
    0 <= b < 256
    /\ (st = DHT_OK \/ st = DHT_ERR_SEQUENCE_INVALID \/ st = DHT_ERR_TIMEOUT).
Proof.
  induction fuel as [|fuel IH]; intros i bit_offset data_byte st b Hacc.
  - simpl. destruct (i <? DHT_DATA_EDGES_PER_BYTE); [discriminate|].
    intros [= <- <-]. auto.
  - rewrite decode_loop_unfold.
    destruct (i <? DHT_DATA_EDGES_PER_BYTE); [|intros [= <- <-]; auto].
    destruct (edge_at es (base + i)) as [e0|]; [|discriminate]. simpl.
    destruct (negb _); [intros [= <- <-]; auto|].
    destruct (edge_at es (base + (i + 1))) as [e1|]; [|discriminate]. simpl.
    destruct (negb _); [intros [= <- <-]; auto|].
    destruct (edge_at es (base + (i + 2))) as [e2|]; [|discriminate]. simpl.
    destruct (_ >? DHT_DATA_BIT_1_DURATION_US_MAX); [intros [= <- <-]; auto|].
    apply IH. unfold u8. apply Z.mod_pos_bound. lia.
Qed.

Lemma decode_byte_result (es : list DhtEdge) (base : Z) (st : DhtStatus) (b : Z) :
  dht_decode_byte es base = Some (st, b) ->
  0 <= b < 256
  /\ (st = DHT_OK \/ st = DHT_ERR_SEQUENCE_INVALID \/ st = DHT_ERR_TIMEOUT).
Proof. apply decode_loop_result. lia. Qed.

Lemma check_status_result (self : Dht) (now : Z) (st : DhtStatus) :
  dht_check_status self now = Some st ->
  (st = DHT_NO_DATA /\ current_edge self = DHT_NO_DATA_AVAILABLE)
  \/ ((st = DHT_BUSY \/ st = DHT_ERR_TIMEOUT)
      /\ current_edge self <> DHT_NO_DATA_AVAILABLE
      /\ current_edge self < DHT_EDGES_NUMBER)
  \/ (st = DHT_DATA_READY /\ DHT_EDGES_NUMBER <= current_edge self).
Proof.
  unfold dht_check_status.
  destruct (Z.eqb_spec (current_edge self) DHT_NO_DATA_AVAILABLE) as [E|E];
    [intros [= <-]; auto|].
  destruct (Z.ltb_spec (current_edge self) DHT_EDGES_NUMBER) as [L|L];
    [|intros [= <-]; auto].
  destruct (edge_at _ _) as [e|]; [|discriminate]. simpl.
  destruct (_ >? _); intros [= <-]; auto 6.
Qed.

(** The statuses [dht_get_data] can give. *)
Lemma get_data_status (self : Dht) (now : Z) (data d : DhtData) (st : DhtStatus) :
  dht_get_data self now data = Some (st, d) ->
  st <> DHT_DATA_READY
  /\ (st = DHT_NO_DATA -> current_edge self = DHT_NO_DATA_AVAILABLE).
Proof.
  unfold dht_get_data.
  destruct (dht_check_status self now) as [st0|] eqn:Hcs; [|discriminate]. simpl.
  apply check_status_result in Hcs.
  destruct Hcs as [[-> Hce]|[[[-> | ->] _]|[-> Hfull]]]; simpl;
    try (intros [= <- <-]; split; [discriminate|intros; congruence]).
  intros Hget.
  destruct (dht_decode_byte (edges self) DHT_INTEGRAL_RH_EDGES_INDEX)
    as [[st1 h]|] eqn:H1; [|discriminate]. simpl in Hget.
  apply decode_byte_result in H1 as (_ & Hs1).
  destruct Hs1 as [-> | [-> | ->]]; simpl in Hget;
    try (injection Hget as <- <-; split; discriminate).
  destruct (dht_decode_byte (edges self) DHT_INTEGRAL_T_EDGES_INDEX)
    as [[st2 t]|] eqn:H2; [|discriminate]. simpl in Hget.
  apply decode_byte_result in H2 as (_ & Hs2).
  destruct Hs2 as [-> | [-> | ->]]; simpl in Hget;
    try (injection Hget as <- <-; split; discriminate).
  destruct (dht_decode_byte (edges self) DHT_CHECKSUM_EDGES_INDEX)
    as [[st3 c]|]; [|discriminate]. simpl in Hget.
  destruct (negb _); injection Hget as <- <-; split; discriminate.
Qed.

End GetDataResults.

(** X2. Whenever [dht_get_data] returns [DHT_OK], the capture was complete
    (cursor at 84 or above) and the structure it filled is consistent: both
    decimal fields are 0, the three decoded fields are bytes, and the
    checksum field equals the sum of the four data fields modulo 256. *)
Theorem get_data_ok_postcondition (self : Dht) (now : Z) (data d : DhtData) :
  dht_get_data self now data = Some (DHT_OK, d) ->
  DHT_EDGES_NUMBER <= current_edge self
  /\ decimal (humidity d) = 0 /\ decimal (temperature d) = 0
  /\ 0 <= integral (humidity d) < 256
  /\ 0 <= integral (temperature d) < 256
  /\ 0 <= crc d < 256
  /\ crc d = (integral (humidity d) + decimal (humidity d)
             + integral (temperature d) + decimal (temperature d)) mod 256.
Proof.
  unfold dht_get_data.
  destruct (dht_check_status self now) as [st0|] eqn:Hcs; [|discriminate]. simpl.
  apply check_status_result in Hcs.
  destruct Hcs as [[-> _]|[[[-> | ->] _]|[-> Hfull]]]; try discriminate. simpl.
  destruct (dht_decode_byte (edges self) DHT_INTEGRAL_RH_EDGES_INDEX)
    as [[st1 h]|] eqn:H1; [|discriminate]. simpl.
  apply decode_byte_result in H1 as (Hh & Hs1).
  destruct Hs1 as [-> | [-> | ->]]; try discriminate. simpl.
  destruct (dht_decode_byte (edges self) DHT_INTEGRAL_T_EDGES_INDEX)
    as [[st2 t]|] eqn:H2; [|discriminate]. simpl.
  apply decode_byte_result in H2 as (Ht & Hs2).
  destruct Hs2 as [-> | [-> | ->]]; try discriminate. simpl.
  destruct (dht_decode_byte (edges self) DHT_CHECKSUM_EDGES_INDEX)
    as [[st3 c]|] eqn:H3; [|discriminate]. simpl.
  apply decode_byte_result in H3 as (Hc & _).
  unfold dht_calculate_data_crc. simpl. rewrite land_255.
  destruct (Z.eqb_spec ((h + 0 + t + 0) mod 256) c) as [E|E]; [|discriminate].
  simpl. intros [= <-]. simpl. repeat split; try lia; try assumption.
Qed.

Lemma get_data_ok_postcondition_witness :
  DHT_EDGES_NUMBER <= current_edge (ready scenario_edges)
  /\ decimal (humidity (mkData (mkReading 44 0) (mkReading 25 0) 69)) = 0
  /\ decimal (temperature (mkData (mkReading 44 0) (mkReading 25 0) 69)) = 0
  /\ 0 <= 44 < 256 /\ 0 <= 25 < 256 /\ 0 <= 69 < 256
  /\ 69 = (44 + 0 + 25 + 0) mod 256.
Proof.
  apply (get_data_ok_postcondition (ready scenario_edges) 0 blank_data
           (mkData (mkReading 44 0) (mkReading 25 0) 69)).
  vm_compute. reflexivity.
Defined.

(** X3. [dht_get_data] never returns [DHT_DATA_READY]; and on a device whose
    capture is not complete (cursor below 84) it returns what
    [dht_check_status] returns, one of [DHT_NO_DATA], [DHT_BUSY] and
    [DHT_ERR_TIMEOUT], and leaves the caller's structure untouched. *)
Theorem get_data_not_ready (self : Dht) (now : Z) (data d : DhtData) (st : DhtStatus) :
  dht_get_data self now data = Some (st, d) ->
  st <> DHT_DATA_READY
  /\ (current_edge self < DHT_EDGES_NUMBER ->
      dht_check_status self now = Some st /\ d = data
      /\ (st = DHT_NO_DATA \/ st = DHT_BUSY \/ st = DHT_ERR_TIMEOUT)).
Proof.
  intros Hget. split; [now apply get_data_status in Hget|].
  intros Hlt. unfold dht_get_data in Hget.
  destruct (dht_check_status self now) as [st0|] eqn:Hcs; [|discriminate].
  simpl in Hget.
  destruct (check_status_result _ _ _ Hcs) as [[-> _]|[[[-> | ->] _]|[-> Hfull]]];
    simpl in Hget; try lia; injection Hget as <- <-; auto 6.
Qed.

(** A capture stalled after 5 edges, queried 23 us after the last of them. *)
Lemma get_data_not_ready_witness :
  DHT_BUSY <> DHT_DATA_READY
  /\ (current_edge (mkDht scenario_edges 5) < DHT_EDGES_NUMBER ->
      dht_check_status (mkDht scenario_edges 5) 1260 = Some DHT_BUSY
      /\ blank_data = blank_data
      /\ (DHT_BUSY = DHT_NO_DATA \/ DHT_BUSY = DHT_BUSY \/ DHT_BUSY = DHT_ERR_TIMEOUT)).
Proof.
  apply (get_data_not_ready (mkDht scenario_edges 5) 1260 blank_data blank_data DHT_BUSY).
  vm_compute. reflexivity.
Defined.

(** ** A pulse that lasts too long *)

Section Overlong.




End Overlong.



(** ** What the capture path stores *)

Section CaptureRoundTrip.

Lemma handle_edges_app (evs1 evs2 : list EdgeEvent) :
  forall self : Dht,
    handle_edges self (evs1 ++ evs2)
    = '(self1, log1) ← handle_edges self evs1;
      '(self2, log2) ← handle_edges self1 evs2;
      Some (self2, log1 ++ log2).
Proof.
  induction evs1 as [|ev evs1 IH]; intros self.
  - simpl. destruct (handle_edges self evs2) as [[self2 log2]|]; reflexivity.
  - cbn [handle_edges app].
    destruct (dht_handle_data_line_edge self (ev_level ev) (ev_time ev)) as [[s1 l1]|];
      [|reflexivity].
    simpl. rewrite IH.
    destruct (handle_edges s1 evs1) as [[s2 l2]|]; [|reflexivity]. simpl.
    destruct (handle_edges s2 evs2) as [[s3 l3]|]; [|reflexivity]. simpl.
    now rewrite app_assoc.
Qed.

(** Outside the recording range nothing is stored. *)
Lemma handle_edges_closed (evs : list EdgeEvent) (self : Dht) :
  current_edge self < 0 \/ DHT_EDGES_NUMBER <= current_edge self ->
  handle_edges self evs = Some (self, []).
Proof.
  intros Hce. induction evs as [|ev evs IH]; [reflexivity|].
  cbn [handle_edges]. rewrite handler_discards.
  - simpl. now rewrite IH.
  - unfold records, DHT_EDGES_NUMBER in *. lia.
Qed.

(** With the cursor at 0, rising edges are not stored. *)
Lemma handle_edges_rising (evs : list EdgeEvent) (self : Dht) :
  current_edge self = 0 -> forallb is_rising evs = true ->
  handle_edges self evs = Some (self, []).
Proof.
  intros Hce. induction evs as [|ev evs IH]; [reflexivity|].
  simpl. intros Hr. apply andb_true_iff in Hr as [Hev Hr].
  rewrite handler_discards.
  - simpl. now rewrite IH.
  - unfold records, DHT_EDGES_NUMBER, is_rising in *.
    destruct (ev_level ev); [discriminate|]. intros [[_ ?]|?]; [discriminate|lia].
Qed.

(** From a cursor inside the buffer, the events fill the slots from the
    cursor on, in order. *)
Lemma handle_edges_fill (evs : list EdgeEvent) :
  forall self : Dht,
    length (edges self) = 84%nat ->
    1 <= current_edge self ->
    current_edge self + Z.of_nat (length evs) <= DHT_EDGES_NUMBER ->
    handle_edges self evs
    = Some (mkDht (take (Z.to_nat (current_edge self)) (edges self)
                   ++ (edge_of <$> evs)
                   ++ drop (Z.to_nat (current_edge self) + length evs) (edges self))
                  (current_edge self + Z.of_nat (length evs)),
            if (current_edge self + Z.of_nat (length evs) =? DHT_EDGES_NUMBER)
               && (0 <? Z.of_nat (length evs))
            then [hal_notify_sequence_completed] else []).
Proof.
  unfold DHT_EDGES_NUMBER.
  induction evs as [|ev evs IH]; intros self Hlen Hce Hfit.
  - simpl. rewrite Nat.add_0_r, take_drop, Z.add_0_r, andb_false_r.
    now destruct self.
  - cbn [handle_edges].
    rewrite handler_records; [|exact Hlen|right; unfold DHT_EDGES_NUMBER; simpl in Hfit; lia].
    simpl mbind. cbn [length] in Hfit.
    rewrite IH; [|simpl; now rewrite length_insert|simpl; lia|simpl; lia].
    simpl.
    set (c := Z.to_nat (current_edge self)).
    assert (Hc : (c < length (edges self))%nat) by (unfold c; lia).
    replace (Z.to_nat (current_edge self + 1)) with (S c) by (unfold c; lia).
    rewrite (take_S_r _ c (mkEdge (ev_time ev) (ev_level ev)))
      by (now apply list_lookup_insert_eq).
    rewrite take_insert_ge by lia.
    rewrite drop_insert_lt by lia.
    rewrite <- !app_assoc. simpl.
    replace (S c + length evs)%nat with (c + S (length evs))%nat by lia.
    replace (current_edge self + 1 + Z.of_nat (length evs))
      with (current_edge self + Z.of_nat (S (length evs))) by lia.
    f_equal. f_equal.
    + now rewrite Nat.add_succ_r.
    + unfold DHT_EDGES_NUMBER.
      destruct (Z.eqb_spec (current_edge self + 1) 84),
               (Z.eqb_spec (current_edge self + Z.of_nat (S (length evs))) 84),
               (Z.ltb_spec 0 (Z.of_nat (length evs))),
               (Z.ltb_spec 0 (Z.of_nat (S (length evs))));
        simpl; try reflexivity; lia.
Qed.

(** From the armed state: a falling edge, then anything. *)
Lemma handle_edges_capture (self : Dht) (ev0 : EdgeEvent) (rest : list EdgeEvent) :
  length (edges self) = 84%nat ->
  current_edge self = 0 ->
  ev_level ev0 = DHT_DATA_LOW ->
  (length (ev0 :: rest) <= 84)%nat ->
  handle_edges self (ev0 :: rest)
  = Some (mkDht ((edge_of <$> ev0 :: rest) ++ drop (length (ev0 :: rest)) (edges self))
                (Z.of_nat (length (ev0 :: rest))),
          if (length (ev0 :: rest) =? 84)%nat then [hal_notify_sequence_completed] else []).
Proof.
  intros Hlen Hce Hlow Hfit. cbn [handle_edges length] in *.
  rewrite handler_records; [|exact Hlen|left; now split].
  simpl mbind. rewrite Hce. simpl Z.to_nat. simpl Z.add.
  rewrite handle_edges_fill;
    [|simpl; now rewrite length_insert|simpl; lia|simpl; unfold DHT_EDGES_NUMBER; lia].
  simpl.
  destruct (edges self) as [|e es] eqn:Hes; [discriminate|].
  simpl.
  replace (0 + 1 + Z.of_nat (length rest)) with (Z.of_nat (S (length rest))) by lia.
  f_equal. f_equal.
  unfold DHT_EDGES_NUMBER.
  destruct (Z.eqb_spec (Z.of_nat (S (length rest))) 84),
           (Nat.eqb_spec (length rest) 83),
           (Z.ltb_spec 0 (Z.of_nat (length rest)));
    simpl; try reflexivity; lia.
Qed.

End CaptureRoundTrip.

(** X5. From the armed state (cursor 0), a sequence of at most 84 edges that
    begins with a falling edge is stored as it arrives: the buffer then
    starts with the samples of these edges, in order, the slots after
    them keep their contents, [dht_get_edges_count] returns their number,
    and the completion notification is sent exactly when they are 84. *)
Theorem capture_round_trip (self : Dht) (ev0 : EdgeEvent) (rest : list EdgeEvent) :
  length (edges self) = 84%nat ->
  current_edge self = 0 ->
  ev_level ev0 = DHT_DATA_LOW ->
  (length (ev0 :: rest) <= 84)%nat ->
  exists self',
    handle_edges self (ev0 :: rest)
    = Some (self', if (length (ev0 :: rest) =? 84)%nat
                   then [hal_notify_sequence_completed] else [])
    /\ edges self' = (edge_of <$> ev0 :: rest) ++ drop (length (ev0 :: rest)) (edges self)
    /\ length (edges self') = 84%nat
    /\ dht_get_edges_count self' = Z.of_nat (length (ev0 :: rest)).
Proof.
  intros Hlen Hce Hlow Hfit.
  eexists. split; [now apply handle_edges_capture|].
  split; [reflexivity|]. split.
  - cbn [edges]. rewrite length_app, length_fmap, length_drop. lia.
  - unfold dht_get_edges_count. cbn [current_edge].
    rewrite Z.gtb_ltb.
    destruct (Z.ltb_spec 0 (Z.of_nat (length (ev0 :: rest)))); [|simpl in *; lia].
    apply u32_small. simpl in *. lia.
Qed.

Lemma capture_round_trip_witness :
  exists self',
    handle_edges (mkDht (edges uninitialised) 0) (events_of scenario_edges)
    = Some (self', [hal_notify_sequence_completed])
    /\ edges self' = scenario_edges
    /\ length (edges self') = 84%nat
    /\ dht_get_edges_count self' = 84.
Proof.
  destruct (capture_round_trip (mkDht (edges uninitialised) 0)
              (mkEvent DHT_DATA_LOW 1000) (drop 1 (events_of scenario_edges)))
    as (self' & Hrun & Hedges & Hlen & Hcount);
    [reflexivity | reflexivity | reflexivity | vm_compute; lia |].
  exists self'. split; [exact Hrun|]. split; [|split; [exact Hlen|exact Hcount]].
  rewrite Hedges. vm_compute. reflexivity.
Defined.

(** X6. A complete capture is exactly the 84 edges from the first falling
    edge on: rising edges that reach the handler before it (cursor still 0)
    and any edges that reach it after the 84th are not stored, and the
    completion notification is sent once. *)
Theorem capture_ignores_spurious_edges
        (self : Dht) (before : list EdgeEvent) (ev0 : EdgeEvent)
        (rest after : list EdgeEvent) :
  length (edges self) = 84%nat ->
  current_edge self = 0 ->
  forallb is_rising before = true ->
  ev_level ev0 = DHT_DATA_LOW ->
  length (ev0 :: rest) = 84%nat ->
  handle_edges self (before ++ (ev0 :: rest) ++ after)
  = Some (ready (edge_of <$> ev0 :: rest), [hal_notify_sequence_completed]).
Proof.
  intros Hlen Hce Hrising Hlow Hfull.
  assert (Hcapture : handle_edges self ((ev0 :: rest) ++ after)
                     = Some (ready (edge_of <$> ev0 :: rest), [hal_notify_sequence_completed])).
  { rewrite handle_edges_app, (handle_edges_capture self ev0 rest Hlen Hce Hlow) by lia.
    rewrite Hfull, drop_ge, app_nil_r by lia. simpl mbind.
    now rewrite handle_edges_closed by (simpl; unfold DHT_EDGES_NUMBER; lia). }
  remember ((ev0 :: rest) ++ after) as tail eqn:Htail.
  rewrite handle_edges_app, (handle_edges_rising before self Hce Hrising).
  simpl. now rewrite Hcapture.
Qed.

Lemma capture_ignores_spurious_edges_witness :
  handle_edges (mkDht (edges uninitialised) 0)
               ([mkEvent DHT_DATA_HIGH 900; mkEvent DHT_DATA_HIGH 950]
                ++ (mkEvent DHT_DATA_LOW 1000 :: drop 1 (events_of scenario_edges))
                ++ [mkEvent DHT_DATA_LOW 9000])
  = Some (ready (edge_of <$> mkEvent DHT_DATA_LOW 1000 :: drop 1 (events_of scenario_edges)),
          [hal_notify_sequence_completed]).
Proof.
  apply capture_ignores_spurious_edges; reflexivity.
Defined.

(** X7. A device left by [dht_init] ignores every edge: whatever edges reach
    the handler, nothing is stored and no notification is sent, the status
    stays [DHT_NO_DATA], [dht_get_data] returns [DHT_NO_DATA] without
    touching the caller's structure, and the edge count is 0. *)
Theorem idle_device_ignores_edges
        (self : Dht) (evs : list EdgeEvent) (now : Z) (data : DhtData) :
  handle_edges (dht_init self) evs = Some (dht_init self, [])
  /\ dht_check_status (dht_init self) now = Some DHT_NO_DATA
  /\ dht_get_data (dht_init self) now data = Some (DHT_NO_DATA, data)
  /\ dht_get_edges_count (dht_init self) = 0.
Proof.
  split; [|repeat split].
  apply handle_edges_closed. left. simpl. unfold DHT_NO_DATA_AVAILABLE. lia.
Qed.

(** X8. The status right after an edge is recorded at time [t]: with the
    cursor still below 84, [dht_check_status] at clock value [now] returns
    [DHT_BUSY] when at most 100 us (modulo 2^32) have passed since [t] and
    [DHT_ERR_TIMEOUT] otherwise; when the edge was the 84th it returns
    [DHT_DATA_READY] whatever the clock shows. *)
Theorem check_status_after_edge (self : Dht) (lvl : DhtDataLevel) (t now : Z) :
  length (edges self) = 84%nat ->
  records self lvl ->
  exists self' log,
    dht_handle_data_line_edge self lvl t = Some (self', log)
    /\ dht_check_status self' now
       = Some (if current_edge self + 1 =? DHT_EDGES_NUMBER then DHT_DATA_READY
               else if u32 (now - t) <=? DHT_NEW_EDGE_TIMEOUT_US then DHT_BUSY
                    else DHT_ERR_TIMEOUT).
Proof.
  intros Hlen Hrec.
  destruct (handler_appends self lvl t Hlen Hrec) as (self' & Hh & Hce & Hat & _).
  assert (Hl : length (edges self') = 84%nat).
  { destruct (handler_step _ _ _ _ _ Hh) as (Hl & _). congruence. }
  exists self'. eexists. split; [exact Hh|].
  assert (Hi : 0 <= current_edge self < 84)
    by (unfold records, DHT_EDGES_NUMBER in Hrec; lia).
  unfold DHT_EDGES_NUMBER.
  destruct (Z.eqb_spec (current_edge self + 1) 84) as [E|E].
  - apply check_status_ready. unfold DHT_EDGES_NUMBER. lia.
  - destruct (check_status_in_progress self' now Hl) as (e & He & ->);
      [unfold DHT_EDGES_NUMBER; lia|].
    replace (current_edge self' - 1) with (current_edge self) in He by lia.
    rewrite Hat in He. now injection He as <-.
Qed.

Lemma check_status_after_edge_witness :
  exists self' log,
    dht_handle_data_line_edge (mkDht scenario_edges 5) DHT_DATA_HIGH 1287
    = Some (self', log)
    /\ dht_check_status self' 1400
       = Some (if 5 + 1 =? DHT_EDGES_NUMBER then DHT_DATA_READY
               else if u32 (1400 - 1287) <=? DHT_NEW_EDGE_TIMEOUT_US then DHT_BUSY
                    else DHT_ERR_TIMEOUT).
Proof.
  apply (check_status_after_edge (mkDht scenario_edges 5) DHT_DATA_HIGH 1287 1400);
    [reflexivity|].
  right. simpl. unfold DHT_EDGES_NUMBER. lia.
Defined.

(** ** How [dht_start_read] ends *)

Section StartOutcome.

Lemma handler_first_low (self self' : Dht) (lvl : DhtDataLevel) (now : Z) (log : list HalCall) :
  dht_handle_data_line_edge self lvl now = Some (self', log) ->
  (1 <= current_edge self -> level_at (edges self) 0 = Some DHT_DATA_LOW) ->
  1 <= current_edge self' -> level_at (edges self') 0 = Some DHT_DATA_LOW.
Proof.
  unfold dht_handle_data_line_edge.
  destruct (_ || _) eqn:G; [|intros [= <- <-]; auto].
  apply handler_guard in G.
  destruct (edge_store _ _ _) as [es'|] eqn:Hst; [|discriminate].
  apply edge_store_inv in Hst as [-> Hi].
  simpl. intros [= <- <-] Hlow _. unfold level_at, edge_at. simpl.
  destruct G as [[Hz ->]|Hpos].
  - rewrite Hz. simpl. rewrite list_lookup_insert_eq by lia. reflexivity.
  - rewrite list_lookup_insert_ne by lia. apply Hlow. lia.
Qed.

Lemma handle_edges_first_low (evs : list EdgeEvent) :
  forall (self self' : Dht) (log : list HalCall),
    handle_edges self evs = Some (self', log) ->
    (1 <= current_edge self -> level_at (edges self) 0 = Some DHT_DATA_LOW) ->
    1 <= current_edge self' -> level_at (edges self') 0 = Some DHT_DATA_LOW.
Proof.
  induction evs as [|ev evs IH]; intros self self' log Hrun Hlow.
  - now injection Hrun as <- <-.
  - cbn [handle_edges] in Hrun.
    destruct (dht_handle_data_line_edge self (ev_level ev) (ev_time ev))
      as [[self1 log1]|] eqn:H1; [|discriminate].
    simpl in Hrun.
    destruct (handle_edges self1 evs) as [[self2 log2]|] eqn:H2; [|discriminate].
    simpl in Hrun. injection Hrun as <- <-.
    apply (IH _ _ _ H2). now apply (handler_first_low _ _ _ _ _ H1).
Qed.

Lemma wait_for_ack_first_low (start_time : Z) (polls : list AckPoll) :
  forall (self self' : Dht) (st : DhtStatus) (log : list HalCall),
    dht_wait_for_ack self start_time polls = Returns (st, self', log) ->
    (1 <= current_edge self -> level_at (edges self) 0 = Some DHT_DATA_LOW) ->
    1 <= current_edge self' -> level_at (edges self') 0 = Some DHT_DATA_LOW.
Proof.
  induction polls as [|p polls IH]; intros self self' st log Hw Hlow; [discriminate|].
  cbn [dht_wait_for_ack] in Hw.
  destruct (handle_edges self (irq_before_test p)) as [[self1 log1]|] eqn:H1;
    [|discriminate].
  assert (Hlow1 := handle_edges_first_low _ _ _ _ H1 Hlow).
  destruct (current_edge self1 =? 0).
  - destruct (_ >? _).
    + now injection Hw as <- <- <-.
    + destruct (dht_wait_for_ack self1 start_time polls) as [[[st2 self2] log2]| |] eqn:H2;
        try discriminate.
      injection Hw as <- <- <-. now apply (IH _ _ _ _ H2).
  - now injection Hw as <- <- <-.
Qed.


(** The two ways a [dht_start_read] ends. *)
Lemma start_read_status (self self' : Dht) (sched : StartSchedule)
      (st : DhtStatus) (log : list HalCall) :
  dht_start_read self sched = Returns (st, self', log) ->
  (st = DHT_OK /\ 1 <= current_edge self' <= DHT_EDGES_NUMBER)
  \/ (st = DHT_ERR_TIMEOUT /\ current_edge self' = 1).
Proof.
  intros Hstart.
  destruct (start_read_run _ _ _ _ _ Hstart) as (_ & Hce).
  unfold dht_start_read in Hstart. simpl in Hstart.
  destruct (handle_edges _ _) as [[self1 log1]|]; [|discriminate].
  destruct (dht_wait_for_ack _ _ _) as [[[st3 self3] log3]| |] eqn:H3; try discriminate.
  apply wait_for_ack_run in H3 as (_ & _ & _ & Hst).
  destruct Hst as [[-> Hnz]| ->]; simpl in Hstart; injection Hstart as <- <- <-; auto.
Qed.

End StartOutcome.

(** *** With edges handled around the aborts *)

Section AbortInterleaving.

Lemma handler_cursor (self self' : Dht) (lvl : DhtDataLevel) (now : Z) (log : list HalCall) :
  dht_handle_data_line_edge self lvl now = Some (self', log) ->
  1 <= current_edge self ->
  current_edge self'
  = if current_edge self <? DHT_EDGES_NUMBER then current_edge self + 1 else current_edge self.
Proof.
  intros Hh Hce. destruct (records_dec self lvl) as [Hrec|Hrec].
  - unfold dht_handle_data_line_edge in Hh.
    rewrite (proj2 (handler_guard self lvl) Hrec) in Hh.
    destruct (edge_store _ _ _); [|discriminate].
    simpl in Hh. injection Hh as <- _. simpl.
    unfold records, DHT_EDGES_NUMBER in *.
    destruct (Z.ltb_spec (current_edge self) 84); lia.
  - rewrite handler_discards in Hh by assumption. injection Hh as <- _.
    unfold records, DHT_EDGES_NUMBER in *.
    destruct (Z.ltb_spec (current_edge self) 84); lia.
Qed.

(** From a cursor inside the buffer, each edge moves it by one until it is
    at 84. *)
Lemma handle_edges_cursor (evs : list EdgeEvent) :
  forall (self self' : Dht) (log : list HalCall),
    handle_edges self evs = Some (self', log) ->
    1 <= current_edge self <= DHT_EDGES_NUMBER ->
    current_edge self' = Z.min DHT_EDGES_NUMBER (current_edge self + Z.of_nat (length evs)).
Proof.
  unfold DHT_EDGES_NUMBER.
  induction evs as [|ev evs IH]; intros self self' log Hrun Hce.
  - injection Hrun as <- <-. simpl. lia.
  - cbn [handle_edges] in Hrun.
    destruct (dht_handle_data_line_edge self (ev_level ev) (ev_time ev))
      as [[self1 log1]|] eqn:H1; [|discriminate].
    simpl in Hrun.
    destruct (handle_edges self1 evs) as [[self2 log2]|] eqn:H2; [|discriminate].
    simpl in Hrun. injection Hrun as <- <-.
    apply handler_cursor in H1; [|lia]. unfold DHT_EDGES_NUMBER in H1.
    destruct (Z.ltb_spec (current_edge self) 84).
    + rewrite (IH _ _ _ H2) by lia. rewrite H1. cbn [length]. lia.
    + rewrite (IH _ _ _ H2) by lia. rewrite H1. cbn [length]. lia.
Qed.

Lemma abort_irq_result (self self' : Dht) (evs : list EdgeEvent) (log : list HalCall) :
  dht_abort_read_irq self evs = Some (self', log) ->
  length (edges self') = length (edges self)
  /\ current_edge self' = Z.min DHT_EDGES_NUMBER (1 + Z.of_nat (length evs)).
Proof.
  unfold dht_abort_read_irq.
  destruct (handle_edges _ evs) as [[self1 log1]|] eqn:H1; [|discriminate].
  simpl. intros [= <- <-]. split.
  - now apply handle_edges_run in H1 as (Hl & _).
  - apply handle_edges_cursor in H1; [exact H1|].
    simpl. unfold DHT_EDGES_NUMBER. lia.
Qed.

(** With no edge handled around the aborts the two models of
    [dht_start_read] agree. *)
Lemma start_read_irq_undisturbed (self : Dht) (sched : StartSchedule) :
  dht_start_read_irq self (undisturbed sched) = dht_start_read self sched.
Proof.
  unfold dht_start_read_irq, dht_start_read, undisturbed. simpl.
  destruct (handle_edges _ _) as [[self1 log1]|]; [|reflexivity].
  destruct (dht_wait_for_ack _ _ _) as [[[st self3] log3]| |]; reflexivity.
Qed.

(** The two ways a [dht_start_read] ends, whatever is handled meanwhile. *)
Lemma start_read_irq_status (self self' : Dht) (il : StartInterleaving)
      (st : DhtStatus) (log : list HalCall) :
  dht_start_read_irq self il = Returns (st, self', log) ->
  length (edges self') = length (edges self)
  /\ ((st = DHT_OK /\ 1 <= current_edge self' <= DHT_EDGES_NUMBER)
      \/ (st = DHT_ERR_TIMEOUT
          /\ current_edge self'
             = Z.min DHT_EDGES_NUMBER (1 + Z.of_nat (length (irq_during_last_abort il))))).
Proof.
  unfold dht_start_read_irq.
  destruct (dht_abort_read_irq self _) as [[self0 log0]|] eqn:H0; [|discriminate].
  apply abort_irq_result in H0 as (Hl0 & _).
  destruct (handle_edges self0 _) as [[self1 log1]|] eqn:H1; [|discriminate].
  apply handle_edges_run in H1 as (Hl1 & _).
  destruct (dht_wait_for_ack _ _ _) as [[[st3 self3] log3]| |] eqn:H3; try discriminate.
  apply wait_for_ack_run in H3 as (Hl3 & Hm3 & Hb3 & Hst). simpl in Hl3, Hm3, Hb3.
  unfold DHT_EDGES_NUMBER in *.
  destruct Hst as [[-> Hnz]| ->]; simpl.
  - intros [= <- <- <-]. split; [congruence|]. left. split; [reflexivity|lia].
  - destruct (handle_edges self3 _) as [[self3' log3']|] eqn:H4; [|discriminate].
    apply handle_edges_run in H4 as (Hl4 & _).
    destruct (dht_abort_read_irq self3' _) as [[self4 log4]|] eqn:H5; [|discriminate].
    apply abort_irq_result in H5 as (Hl5 & Hc5).
    intros [= <- <- <-]. split; [congruence|]. right. now split.
Qed.

End AbortInterleaving.

(** X9. A [dht_start_read] that returns, whatever edges are handled during
    the call, those handled between the cursor store and the interrupt
    disable of its aborts included, leaves the buffer at its size and ends in
    one of two ways: it returns [DHT_OK], the cursor is between 1 and 84 and
    edge 0 of the buffer is a falling edge; or it returns [DHT_ERR_TIMEOUT]
    and the cursor is 1 plus the number of edges handled between the cursor
    store and the interrupt disable of the final abort, at most 84 (so 1 when
    there is none).  It returns no other status. *)
Theorem start_read_outcome (self self' : Dht) (il : StartInterleaving)
        (st : DhtStatus) (log : list HalCall) :
  dht_start_read_irq self il = Returns (st, self', log) ->
  length (edges self') = length (edges self)
  /\ ((st = DHT_OK
       /\ 1 <= current_edge self' <= DHT_EDGES_NUMBER
       /\ level_at (edges self') 0 = Some DHT_DATA_LOW)
      \/ (st = DHT_ERR_TIMEOUT
          /\ current_edge self'
             = Z.min DHT_EDGES_NUMBER (1 + Z.of_nat (length (irq_during_last_abort il))))).
Proof.
  intros Hstart.
  destruct (start_read_irq_status _ _ _ _ _ Hstart) as (Hlen & Hst).
  split; [exact Hlen|].
  destruct Hst as [(-> & Hce)|Htimeout]; [left|now right].
  split; [reflexivity|]. split; [exact Hce|].
  unfold dht_start_read_irq in Hstart.
  destruct (dht_abort_read_irq self _) as [[self0 log0]|]; [|discriminate].
  destruct (handle_edges self0 _) as [[self1 log1]|]; [|discriminate].
  destruct (dht_wait_for_ack _ _ _) as [[[st3 self3] log3]| |] eqn:H3; try discriminate.
  assert (Hlow := wait_for_ack_first_low _ _ _ _ _ _ H3).
  destruct (status_eqb st3 DHT_ERR_TIMEOUT).
  - destruct (handle_edges self3 _) as [[self3' log3']|]; [|discriminate].
    destruct (dht_abort_read_irq self3' _) as [[self4 log4]|]; discriminate.
  - injection Hstart as <- _. apply Hlow; [simpl; lia|lia].
Qed.

Lemma start_read_outcome_witness :
  exists armed : Dht,
    length (edges armed) = length (edges (dht_init uninitialised))
    /\ ((DHT_OK = DHT_OK
         /\ 1 <= current_edge armed <= DHT_EDGES_NUMBER
         /\ level_at (edges armed) 0 = Some DHT_DATA_LOW)
        \/ (DHT_OK = DHT_ERR_TIMEOUT
            /\ current_edge armed
               = Z.min DHT_EDGES_NUMBER
                       (1 + Z.of_nat (length (irq_during_last_abort
                                                (undisturbed scenario_schedule)))))).
Proof.
  eexists.
  eapply (start_read_outcome (dht_init uninitialised) _ (undisturbed scenario_schedule) DHT_OK).
  vm_compute. reflexivity.
Defined.

(** A timeout during whose abort one edge is handled after the cursor store:
    the call returns with the cursor at 2. *)
Example start_read_timeout_preempted :
  exists self' log,
    dht_start_read_irq (dht_init uninitialised)
      (mkInterleaving [] (mkSchedule [] 500 [mkPoll [] 561]) [] [mkEvent DHT_DATA_LOW 562])
    = Returns (DHT_ERR_TIMEOUT, self', log)
    /\ current_edge self' = 2.
Proof. eexists _, _. split; vm_compute; reflexivity. Qed.



(** X11. On every device a program can hold, [dht_check_status] returns,
    and its answer is decided by the cursor: [DHT_NO_DATA] exactly at -1,
    [DHT_DATA_READY] exactly at 84, and [DHT_BUSY] or [DHT_ERR_TIMEOUT]
    exactly in between; it never returns [DHT_OK],
    [DHT_ERR_SEQUENCE_INVALID] or [DHT_ERR_CRC]. *)
Theorem check_status_classifies (self : Dht) (now : Z) :
  reachable self ->
  exists st,
    dht_check_status self now = Some st
    /\ (st = DHT_NO_DATA <-> current_edge self = DHT_NO_DATA_AVAILABLE)
    /\ (st = DHT_DATA_READY <-> current_edge self = DHT_EDGES_NUMBER)
    /\ (st = DHT_BUSY \/ st = DHT_ERR_TIMEOUT <-> 1 <= current_edge self < DHT_EDGES_NUMBER)
    /\ st <> DHT_OK /\ st <> DHT_ERR_SEQUENCE_INVALID /\ st <> DHT_ERR_CRC.
Proof.
  intros Hr.
  destruct (step_defined self (op_check_status now) Hr) as [self' Hstep]; [discriminate|].
  apply reachable_invariant in Hr as (Hlen & Hc).
  simpl in Hstep.
  destruct (dht_check_status self now) as [st|] eqn:Hcs; [|discriminate].
  exists st. split; [reflexivity|].
  apply check_status_result in Hcs.
  unfold cursor_ok, DHT_NO_DATA_AVAILABLE, DHT_EDGES_NUMBER in *.
  destruct Hcs as [[-> Hce]|[[[-> | ->] [Hne Hlt]]|[-> Hge]]];
    repeat split; try discriminate; try lia; intros; try discriminate; try lia; auto.
  all: try (destruct H; discriminate).
Qed.

Lemma check_status_classifies_witness :
  exists st,
    dht_check_status (fst (dht_abort_read (dht_init uninitialised))) 50 = Some st
    /\ (st = DHT_NO_DATA
        <-> current_edge (fst (dht_abort_read (dht_init uninitialised))) = DHT_NO_DATA_AVAILABLE)
    /\ (st = DHT_DATA_READY
        <-> current_edge (fst (dht_abort_read (dht_init uninitialised))) = DHT_EDGES_NUMBER)
    /\ (st = DHT_BUSY \/ st = DHT_ERR_TIMEOUT
        <-> 1 <= current_edge (fst (dht_abort_read (dht_init uninitialised))) < DHT_EDGES_NUMBER)
    /\ st <> DHT_OK /\ st <> DHT_ERR_SEQUENCE_INVALID /\ st <> DHT_ERR_CRC.
Proof.
  apply check_status_classifies.
  apply (reachable_step (dht_init uninitialised) _ op_abort_read); [|reflexivity].
  now apply reachable_init.
Defined.

(** ** The convenience read *)



(** With a [dht_wait_for_completion] that returns at once, as the platform
    stubs' does, [dht_read] returns [DHT_BUSY]: only the acknowledge edge
    has been captured when [dht_get_data] runs. *)
Example read_returns_busy :
  exists self' log,
    dht_read (dht_init uninitialised)
             (mkReadSchedule
                (undisturbed (mkSchedule [] 985 [mkPoll [mkEvent DHT_DATA_LOW 1000] 1001]))
                [] 1002)
             blank_data
    = Returns (DHT_BUSY, blank_data, self', log).
Proof. eexists _, _. vm_compute. reflexivity. Qed.

Section WholeRead.

(** The polls of the acknowledge wait before the one that sees the
    acknowledge: nothing is stored and the loop goes on. *)
Lemma wait_for_ack_skips (armed acked : Dht) (start_time : Z) (early : list AckPoll)
      (p : AckPoll) (later : list AckPoll) (log : list HalCall) :
  current_edge armed = 0 ->
  forallb only_rising early = true ->
  existsb (late_poll start_time) early = false ->
  handle_edges armed (irq_before_test p) = Some (acked, log) ->
  current_edge acked <> 0 ->
  dht_wait_for_ack armed start_time (early ++ p :: later) = Returns (DHT_OK, acked, log).
Proof.
  intros Hce Hquiet Hearly Hack Hnz.
  induction early as [|q early IH].
  - simpl. rewrite Hack. apply Z.eqb_neq in Hnz. now rewrite Hnz.
  - simpl in Hquiet, Hearly. apply andb_true_iff in Hquiet as [Hq Hquiet].
    apply orb_false_iff in Hearly as [Hqt Hearly].
    unfold only_rising in Hq. unfold late_poll in Hqt.
    simpl. rewrite (handle_edges_rising _ armed Hce Hq), Hce. simpl.
    rewrite Z.gtb_ltb, Hqt. now rewrite IH.
Qed.

(** The 84 edges of a frame handled from the armed state, with whatever
    follows them. *)
Lemma handle_edges_frame (armed : Dht) (ev0 : EdgeEvent) (rest extra : list EdgeEvent) :
  length (edges armed) = 84%nat ->
  current_edge armed = 0 ->
  ev_level ev0 = DHT_DATA_LOW ->
  length (ev0 :: rest) = 84%nat ->
  handle_edges armed ((ev0 :: rest) ++ extra)
  = Some (ready (edge_of <$> ev0 :: rest), [hal_notify_sequence_completed]).
Proof.
  intros Hlen Hce Hlow Hfull.
  rewrite handle_edges_app, (handle_edges_capture armed ev0 rest Hlen Hce Hlow) by lia.
  rewrite Hfull, drop_ge, app_nil_r by lia. simpl mbind.
  now rewrite handle_edges_closed by (simpl; unfold DHT_EDGES_NUMBER; lia).
Qed.

End WholeRead.

(** X13. A whole read, on a device with its 84 slots.  Suppose that, whatever
    edges are handled while the first abort runs and during the start signal,
    (1) before each poll of the acknowledge wait that precedes the one seeing
    the acknowledge only rising edges are handled, and none of these polls
    reads more than 60 us elapsed; (2) before the next poll, after any number
    of rising edges, the acknowledge edge (a falling edge) is handled,
    possibly followed by further edges; (3) those further edges and the edges
    handled before [dht_get_data] runs are, in order, the other 83 edges of
    the capture followed by any others.  Then [dht_read] leaves the buffer
    holding exactly the 84 edges, the acknowledge first, with the cursor at
    84, and returns the status and data that [dht_get_data] decodes from
    them; rising edges before the acknowledge and edges after the 84th change
    nothing. *)
Theorem read_full_capture
        (self : Dht) (first_abort pre : list EdgeEvent) (start_time : Z)
        (early : list AckPoll) (rising : list EdgeEvent) (ev0 : EdgeEvent)
        (same_poll : list EdgeEvent) (poll_t : Z) (later : list AckPoll)
        (after_test last_abort in_wait rest extra : list EdgeEvent)
        (now : Z) (data : DhtData) :
  length (edges self) = 84%nat ->
  forallb only_rising early = true ->
  existsb (late_poll start_time) early = false ->
  forallb is_rising rising = true ->
  ev_level ev0 = DHT_DATA_LOW ->
  length (ev0 :: rest) = 84%nat ->
  same_poll ++ in_wait = rest ++ extra ->
  exists st d log,
    dht_get_data (ready (edge_of <$> ev0 :: rest)) now data = Some (st, d)
    /\ dht_read self
         (mkReadSchedule
            (mkInterleaving
               first_abort
               (mkSchedule pre start_time
                           (early ++ mkPoll (rising ++ ev0 :: same_poll) poll_t :: later))
               after_test last_abort)
            in_wait now)
         data
       = Returns (st, d, ready (edge_of <$> ev0 :: rest), log).
Proof.
  intros Hlen Hquiet Hearly Hrising Hlow Hfull Hsplit.
  set (captured := edge_of <$> ev0 :: rest).
  (* the first abort and the start signal *)
  destruct (handle_edges_defined first_abort (mkDht (edges self) (status_code DHT_NO_DATA)) Hlen)
    as (self0 & log0 & H0).
  assert (Hl0 : length (edges self0) = 84%nat)
    by (apply handle_edges_run in H0 as (Hl & _); simpl in Hl; congruence).
  destruct (handle_edges_defined pre self0 Hl0) as (self1 & log1 & H1).
  assert (Hl1 : length (edges self1) = 84%nat)
    by (apply handle_edges_run in H1 as (Hl & _); congruence).
  set (armed := mkDht (edges self1) 0).
  (* the capture, from the armed state *)
  assert (Hcap : handle_edges armed ((ev0 :: same_poll) ++ in_wait)
                 = Some (ready captured, [hal_notify_sequence_completed])).
  { rewrite <- app_comm_cons, Hsplit, app_comm_cons.
    now apply handle_edges_frame. }
  rewrite handle_edges_app in Hcap.
  destruct (handle_edges armed (ev0 :: same_poll)) as [[acked log_ack]|] eqn:Hack;
    [|discriminate].
  simpl in Hcap.
  destruct (handle_edges acked in_wait) as [[full log_rest]|] eqn:Hrest; [|discriminate].
  simpl in Hcap. injection Hcap as Hfull_eq Hlog.
  assert (Hnz : current_edge acked <> 0).
  { cbn [handle_edges] in Hack.
    rewrite handler_records in Hack; [|exact Hl1|left; now split].
    simpl in Hack.
    destruct (handle_edges _ same_poll) as [[s l]|] eqn:Hsame; [|discriminate].
    apply handle_edges_run in Hsame as (_ & Hmono & _).
    simpl in Hack, Hmono. injection Hack as <- _. lia. }
  (* the acknowledge wait *)
  assert (Hpoll : handle_edges armed (rising ++ ev0 :: same_poll) = Some (acked, log_ack)).
  { rewrite handle_edges_app, (handle_edges_rising rising armed eq_refl Hrising).
    cbn [mbind option_bind]. rewrite Hack. simpl. reflexivity. }
  assert (Hwait : dht_wait_for_ack armed start_time
                    (early ++ mkPoll (rising ++ ev0 :: same_poll) poll_t :: later)
                  = Returns (DHT_OK, acked, log_ack))
    by (now apply wait_for_ack_skips).
  (* the decoder on the complete capture *)
  assert (Hlc : length (edges (ready captured)) = 84%nat)
    by (unfold captured; simpl; rewrite length_fmap; exact Hfull).
  assert (Hstep := step_frozen (ready captured) (op_get_data now data) Hlc eq_refl eq_refl).
  simpl in Hstep.
  destruct (dht_get_data (ready captured) now data) as [[st d]|] eqn:Hget; [|discriminate].
  exists st, d. eexists. split; [reflexivity|].
  unfold dht_read, dht_start_read_irq, dht_abort_read_irq.
  cbn [read_start irq_during_first_abort start_schedule irq_during_start_signal
       ack_start_time ack_polls irq_during_wait read_now].
  rewrite H0. simpl mbind. cbv beta iota. rewrite H1. fold armed. rewrite Hwait.
  change (status_eqb DHT_OK DHT_ERR_TIMEOUT) with false. cbv beta iota.
  change (status_eqb DHT_OK DHT_OK) with true.
  cbn [negb irq_during_wait read_now].
  rewrite Hrest, Hfull_eq, Hget. reflexivity.
Qed.

Lemma read_full_capture_witness :
  exists st d log,
    dht_get_data (ready (edge_of <$> mkEvent DHT_DATA_LOW 1000
                                     :: drop 1 (events_of scenario_edges))) 5000 blank_data
    = Some (st, d)
    /\ dht_read (dht_init uninitialised)
         (mkReadSchedule
            (mkInterleaving
               [mkEvent DHT_DATA_HIGH 90]
               (mkSchedule [mkEvent DHT_DATA_LOW 100; mkEvent DHT_DATA_HIGH 18100] 985
                           ([mkPoll [mkEvent DHT_DATA_HIGH 988] 990]
                            ++ mkPoll ([mkEvent DHT_DATA_HIGH 995]
                                       ++ mkEvent DHT_DATA_LOW 1000
                                          :: take 2 (drop 1 (events_of scenario_edges)))
                                      1001 :: []))
               [] [])
            (drop 3 (events_of scenario_edges) ++ [mkEvent DHT_DATA_LOW 9000]) 5000)
         blank_data
       = Returns (st, d,
                  ready (edge_of <$> mkEvent DHT_DATA_LOW 1000
                                     :: drop 1 (events_of scenario_edges)),
                  log).
Proof.
  apply (read_full_capture (dht_init uninitialised)
           [mkEvent DHT_DATA_HIGH 90]
           [mkEvent DHT_DATA_LOW 100; mkEvent DHT_DATA_HIGH 18100] 985
           [mkPoll [mkEvent DHT_DATA_HIGH 988] 990] [mkEvent DHT_DATA_HIGH 995]
           (mkEvent DHT_DATA_LOW 1000) (take 2 (drop 1 (events_of scenario_edges)))
           1001 [] [] []
           (drop 3 (events_of scenario_edges) ++ [mkEvent DHT_DATA_LOW 9000])
           (drop 1 (events_of scenario_edges)) [mkEvent DHT_DATA_LOW 9000]
           5000 blank_data); reflexivity.
Defined.

(** The same read with nothing else on the line, evaluated: status [DHT_OK],
    44 %RH and 25 degrees. *)
Example read_scenario :
  exists log,
    dht_read (dht_init uninitialised)
      (mkReadSchedule (undisturbed scenario_schedule) (drop 1 (events_of scenario_edges)) 5000)
      blank_data
    = Returns (DHT_OK, mkData (mkReading 44 0) (mkReading 25 0) 69,
               ready scenario_edges, log).
Proof. eexists. vm_compute. reflexivity. Qed.

(** ** Notifications within one read *)

(** [dht_start_read] arms the interrupt with the cursor at 1, the value its
    abort stores, so the edges handled during the start signal are recorded:
    83 of them take the cursor to 84 and the notification is sent before the
    cursor is reset for the capture. *)
Lemma start_signal_burst_notifies (self : Dht) (burst : list EdgeEvent) :
  length (edges self) = 84%nat ->
  length burst = 83%nat ->
  exists self' log,
    handle_edges (fst (dht_abort_read self)) burst = Some (self', log)
    /\ current_edge self' = DHT_EDGES_NUMBER
    /\ notifications log = 1%nat.
Proof.
  intros Hlen Hburst.
  destruct (handle_edges_defined burst (fst (dht_abort_read self)) Hlen)
    as (self' & log & Hrun).
  exists self', log. split; [exact Hrun|].
  assert (Hce : current_edge self' = DHT_EDGES_NUMBER).
  { rewrite (handle_edges_cursor _ _ _ _ Hrun) by (simpl; unfold DHT_EDGES_NUMBER; lia).
    rewrite Hburst. simpl. unfold DHT_EDGES_NUMBER. lia. }
  split; [exact Hce|].
  apply handle_edges_run in Hrun as (_ & _ & _ & _ & ->).
  rewrite Hce. reflexivity.
Qed.

(** C4 (the notification, per attempt).  One [dht_read] on a freshly
    initialised device, with 83 edges handled during the start signal and
    then the 84 edges of the frame 44, 0, 25, 0, 69: the read returns
    [DHT_OK] with 44 %RH and 25 degrees, and the completion notification has
    been sent twice, once when the edges of the start signal took the cursor
    to 84 and once when the capture did. *)
Theorem notification_twice_in_one_read :
  exists log,
    dht_read (dht_init uninitialised) burst_read_schedule blank_data
    = Returns (DHT_OK, mkData (mkReading 44 0) (mkReading 25 0) 69,
               ready scenario_edges, log)
    /\ read_notifications log = 2%nat.
Proof. eexists. split; vm_compute; reflexivity. Qed.

(** ** Platform example (ESP32) *)

Section PrintEdges.

Variable self : Dht.

Lemma durations_fit (k : Z) (e0 e1 : DhtEdge) :
  durations_fit_int self = true ->
  0 <= k < current_edge self - 1 ->
  edge_at (edges self) k = Some e0 ->
  edge_at (edges self) (k + 1) = Some e1 ->
  shown_as_int (u32 (timestamp e1 - timestamp e0)) = Some (u32 (timestamp e1 - timestamp e0)).
Proof.
  unfold durations_fit_int. intros Hall Hk H0 H1.
  rewrite forallb_forall in Hall.
  specialize (Hall (Z.to_nat k)).
  rewrite Z2Nat.id, H0, H1 in Hall by lia.
  unfold shown_as_int. rewrite Hall; [reflexivity|].
  apply in_seq. lia.
Qed.

Lemma print_loop_lines :
  forall (n fuel : nat) (i : Z),
    0 <= i ->
    Z.of_nat n = Z.max 0 (current_edge self - 1 - i) ->
    (n <= fuel)%nat ->
    current_edge self <= Z.of_nat (length (edges self)) ->
    durations_fit_int self = true ->
    exists lines,
      print_loop fuel self i = Some (Z.max i (current_edge self - 1), lines)
      /\ length lines = n
      /\ forall j : nat, (j < n)%nat ->
           exists e0 e1,
             edge_at (edges self) (i + Z.of_nat j) = Some e0
             /\ edge_at (edges self) (i + Z.of_nat j + 1) = Some e1
             /\ lines !! j
                = Some (log_edge (i + Z.of_nat j) (u32 (timestamp e1 - timestamp e0)) (level e0)).
Proof.
  induction n as [|n IH]; intros fuel i Hi Hn Hfuel Hfit Hint.
  - exists []. split; [|split; [reflexivity|intros j Hj; lia]].
    assert (Hge : (i <? current_edge self - 1) = false) by (apply Z.ltb_ge; lia).
    replace (Z.max i (current_edge self - 1)) with i by lia.
    destruct fuel; simpl; now rewrite Hge.
  - destruct fuel as [|fuel]; [lia|].
    assert (Hlt : (i <? current_edge self - 1) = true) by (apply Z.ltb_lt; lia).
    assert (Hedge : forall k, 0 <= k < current_edge self ->
                              is_Some (edge_at (edges self) k)).
    { intros k Hk. unfold edge_at. destruct (Z.leb_spec 0 k); [|lia].
      apply lookup_lt_is_Some. lia. }
    destruct (Hedge i) as [e0 H0]; [lia|].
    destruct (Hedge (i + 1)) as [e1 H1]; [lia|].
    destruct (IH fuel (i + 1)) as (lines & Hloop & Hlen & Hlines); try lia; try assumption.
    exists (log_edge i (u32 (timestamp e1 - timestamp e0)) (level e0) :: lines).
    split; [|split].
    + cbn [print_loop]. rewrite Hlt, H1. simpl. rewrite H0. simpl.
      rewrite (durations_fit i e0 e1 Hint) by (assumption || lia). simpl.
      rewrite Hloop. simpl. do 2 f_equal. lia.
    + simpl. now rewrite Hlen.
    + intros [|j] Hj.
      * exists e0, e1. rewrite Z.add_0_r. now repeat split.
      * destruct (Hlines j) as (a & b & Ha & Hb & Hl); [lia|].
        exists a, b.
        replace (i + Z.of_nat (S j)) with (i + 1 + Z.of_nat j) by lia.
        now repeat split.
Qed.

End PrintEdges.

(** X14. On a device with its 84 slots and a cursor of at most 84, when the
    time from each captured edge to the next (the difference of the two
    stamps, modulo 2^32) is below 2^31 and so is a value of the [int] that
    the format of the line asks for, [dht_print_edges] stays inside the
    buffer and logs the larger of 1 and the cursor many lines: one per
    captured edge but the last, with that time and the level, then a line
    with the level of the last captured edge.  With no edge captured (cursor
    -1, 0 or 1) the single line shows slot 0, whatever it holds. *)
Theorem print_edges_lines (self : Dht) :
  length (edges self) = 84%nat ->
  current_edge self <= DHT_EDGES_NUMBER ->
  durations_fit_int self = true ->
  exists lines e,
    dht_print_edges self = Some lines
    /\ length lines = Z.to_nat (Z.max 1 (current_edge self))
    /\ (forall j : nat, Z.of_nat j < current_edge self - 1 ->
          exists e0 e1,
            edge_at (edges self) (Z.of_nat j) = Some e0
            /\ edge_at (edges self) (Z.of_nat j + 1) = Some e1
            /\ lines !! j
               = Some (log_edge (Z.of_nat j) (u32 (timestamp e1 - timestamp e0)) (level e0)))
    /\ edge_at (edges self) (Z.max 0 (current_edge self - 1)) = Some e
    /\ last lines = Some (log_last (Z.max 0 (current_edge self - 1)) (level e)).
Proof.
  unfold DHT_EDGES_NUMBER. intros Hlen Hce Hint.
  destruct (print_loop_lines self (Z.to_nat (current_edge self - 1))
              (Z.to_nat (current_edge self)) 0) as (body & Hloop & Hbl & Hbody);
    try lia; try assumption.
  assert (He : is_Some (edge_at (edges self) (Z.max 0 (current_edge self - 1)))).
  { unfold edge_at. destruct (Z.leb_spec 0 (Z.max 0 (current_edge self - 1))); [|lia].
    apply lookup_lt_is_Some. lia. }
  destruct He as [e He].
  exists (body ++ [log_last (Z.max 0 (current_edge self - 1)) (level e)]), e.
  split; [|split; [|split; [|split]]].
  - unfold dht_print_edges. rewrite Hloop. simpl. rewrite He. reflexivity.
  - rewrite length_app, Hbl. simpl. lia.
  - intros j Hj. destruct (Hbody j) as (e0 & e1 & H0 & H1 & Hl); [lia|].
    simpl in H0, H1, Hl. exists e0, e1. repeat split; try assumption.
    rewrite lookup_app_l by lia. exact Hl.
  - exact He.
  - apply last_snoc.
Qed.

Lemma print_edges_lines_witness :
  exists lines e,
    dht_print_edges (mkDht scenario_edges 3) = Some lines
    /\ length lines = Z.to_nat (Z.max 1 3)
    /\ (forall j : nat, Z.of_nat j < 3 - 1 ->
          exists e0 e1,
            edge_at scenario_edges (Z.of_nat j) = Some e0
            /\ edge_at scenario_edges (Z.of_nat j + 1) = Some e1
            /\ lines !! j
               = Some (log_edge (Z.of_nat j) (u32 (timestamp e1 - timestamp e0)) (level e0)))
    /\ edge_at scenario_edges (Z.max 0 (3 - 1)) = Some e
    /\ last lines = Some (log_last (Z.max 0 (3 - 1)) (level e)).
Proof.
  apply (print_edges_lines (mkDht scenario_edges 3)); [reflexivity| |reflexivity].
  simpl. unfold DHT_EDGES_NUMBER. lia.
Defined.

(** No edge captured; three edges captured; a cursor beyond the buffer; and
    two captured edges whose stamps are 3000 s apart, a time that is no value
    of [int]. *)
Example print_edges_examples :
  dht_print_edges (dht_init (ready scenario_edges)) = Some [log_last 0 DHT_DATA_LOW]
  /\ dht_print_edges (mkDht scenario_edges 3)
     = Some [log_edge 0 80 DHT_DATA_LOW; log_edge 1 80 DHT_DATA_HIGH; log_last 2 DHT_DATA_LOW]
  /\ dht_print_edges (mkDht scenario_edges 85) = None
  /\ durations_fit_int (mkDht long_gap_edges 2) = false
  /\ dht_print_edges (mkDht long_gap_edges 2) = None.
Proof. repeat split; vm_compute; reflexivity. Qed.

(** X15. [dht_sleep_ms] of the ESP32 layer asks for the least whole number
    of ticks that covers [max_time_ms]: for a tick period between 1 ms and
    2^32 - 1 ms and no overflow of the rounding sum, the ticks times the
    period are at least [max_time_ms] and less than [max_time_ms] plus one
    period; [min_time_ms] plays no part.  A tick period of 0 (a tick rate
    above 1000 Hz) divides by zero. *)
Theorem sleep_ms_rounds_up (period min_time_ms max_time_ms : Z) :
  0 < period ->
  0 <= max_time_ms ->
  max_time_ms + period - 1 < 2 ^ 32 ->
  exists ticks,
    dht_sleep_ms period min_time_ms max_time_ms = Some ticks
    /\ max_time_ms <= ticks * period < max_time_ms + period
    /\ dht_sleep_ms period 0 max_time_ms = Some ticks
    /\ dht_sleep_ms 0 min_time_ms max_time_ms = None.
Proof.
  intros Hp Hmax Hfit. unfold dht_sleep_ms.
  destruct (Z.eqb_spec period 0); [lia|].
  rewrite u32_small by lia.
  eexists. split; [reflexivity|]. split; [|split; reflexivity].
  assert (Hdm := Z.div_mod (max_time_ms + period - 1) period ltac:(lia)).
  assert (Hr := Z.mod_pos_bound (max_time_ms + period - 1) period Hp).
  nia.
Qed.

(** The start signal of [dht_start_read] at a tick of 10 ms: 2 ticks. *)
Lemma sleep_ms_rounds_up_witness :
  exists ticks,
    dht_sleep_ms 10 DHT_START_SIGNAL_DURATION_MS_MIN DHT_START_SIGNAL_DURATION_MS_MAX = Some ticks
    /\ DHT_START_SIGNAL_DURATION_MS_MAX <= ticks * 10 < DHT_START_SIGNAL_DURATION_MS_MAX + 10
    /\ dht_sleep_ms 10 0 DHT_START_SIGNAL_DURATION_MS_MAX = Some ticks
    /\ dht_sleep_ms 0 DHT_START_SIGNAL_DURATION_MS_MIN DHT_START_SIGNAL_DURATION_MS_MAX = None.
Proof.
  apply sleep_ms_rounds_up; unfold DHT_START_SIGNAL_DURATION_MS_MAX; lia.
Defined.

(** ** Status names *)

(** X16. Apart from [DHT_BUSY], every status has a name of its own: two
    statuses other than [DHT_BUSY] with the same name are the same status,
    and none of them is named [DHT_STATUS_UNKNOWN], the name of every value
    that is not a status. *)
Theorem status_names_faithful (a b : DhtStatus) (c : Z) :
  a <> DHT_BUSY -> b <> DHT_BUSY ->
  (forall st : DhtStatus, status_code st <> c) ->
  (dht_status_to_str a = dht_status_to_str b -> a = b)
  /\ dht_status_to_str a <> "DHT_STATUS_UNKNOWN"%string
  /\ status_str_of_code c = "DHT_STATUS_UNKNOWN"%string.
Proof.
  intros Ha Hb Hc. split; [|split].
  - destruct a, b; intros H; try discriminate H; try reflexivity; contradiction.
  - destruct a; discriminate.
  - unfold status_str_of_code.
    destruct (Z.eqb_spec c (status_code DHT_OK)) as [E|_]; [now destruct (Hc DHT_OK)|].
    destruct (Z.eqb_spec c (status_code DHT_NO_DATA)) as [E|_]; [now destruct (Hc DHT_NO_DATA)|].
    destruct (Z.eqb_spec c (status_code DHT_BUSY)) as [E|_]; [now destruct (Hc DHT_BUSY)|].
    destruct (Z.eqb_spec c (status_code DHT_DATA_READY)) as [E|_];
      [now destruct (Hc DHT_DATA_READY)|].
    destruct (Z.eqb_spec c (status_code DHT_ERR_TIMEOUT)) as [E|_];
      [now destruct (Hc DHT_ERR_TIMEOUT)|].
    destruct (Z.eqb_spec c (status_code DHT_ERR_SEQUENCE_INVALID)) as [E|_];
      [now destruct (Hc DHT_ERR_SEQUENCE_INVALID)|].
    destruct (Z.eqb_spec c (status_code DHT_ERR_CRC)) as [E|_];
      [now destruct (Hc DHT_ERR_CRC)|].
    reflexivity.
Qed.

(** The value 3, the bits of [DHT_NO_DATA] and [DHT_BUSY] together. *)
Lemma status_names_faithful_witness :
  (dht_status_to_str DHT_ERR_CRC = dht_status_to_str DHT_ERR_TIMEOUT
   -> DHT_ERR_CRC = DHT_ERR_TIMEOUT)
  /\ dht_status_to_str DHT_ERR_CRC <> "DHT_STATUS_UNKNOWN"%string
  /\ status_str_of_code 3 = "DHT_STATUS_UNKNOWN"%string.
Proof.
  apply (status_names_faithful DHT_ERR_CRC DHT_ERR_TIMEOUT 3); try discriminate.
  intros st. destruct st; discriminate.
Defined.

(** ** Waiting for an acknowledge that cannot be seen *)

Section NoAcknowledge.

Lemma wait_for_ack_spins (start_time : Z) (polls : list AckPoll) (self : Dht) :
  current_edge self = 0 ->
  forallb only_rising polls = true ->
  existsb (late_poll start_time) polls = false ->
  dht_wait_for_ack self start_time polls = Polling.
Proof.
  intros Hce. induction polls as [|p polls IH]; [reflexivity|].
  simpl. intros Hr Hl.
  apply andb_true_iff in Hr as [Hp Hr]. apply orb_false_iff in Hl as [Hpl Hl].
  rewrite (handle_edges_rising _ self Hce Hp), Hce. simpl.
  unfold late_poll in Hpl. rewrite Z.gtb_ltb, Hpl.
  now rewrite IH.
Qed.

End NoAcknowledge.

(** X17. [dht_start_read] gives up only on the clock: as long as no falling
    edge is handled during the acknowledge wait (rising edges do not count)
    and no poll of the clock reads more than 60 us elapsed, the call is still
    waiting, however many polls are made.  In particular it never returns on
    the platform stubs, whose clock stands at 0 and which deliver no edge. *)
Theorem start_read_spins (self : Dht) (start_time : Z) (polls : list AckPoll) :
  forallb only_rising polls = true ->
  existsb (late_poll start_time) polls = false ->
  dht_start_read self (mkSchedule [] start_time polls) = Polling.
Proof.
  intros Hr Hl. unfold dht_start_read. simpl.
  now rewrite wait_for_ack_spins.
Qed.

Lemma start_read_spins_witness :
  dht_start_read (dht_init uninitialised) (mkSchedule [] 0 (stub_polls 1000)) = Polling.
Proof.
  apply start_read_spins; vm_compute; reflexivity.
Defined.

Lemma start_read_on_stubs (self : Dht) (n : nat) :
  dht_start_read self (mkSchedule [] 0 (stub_polls n)) = Polling.
Proof.
  unfold dht_start_read. simpl.
  rewrite wait_for_ack_spins; [reflexivity | reflexivity | |];
    unfold stub_polls; induction n; simpl; auto.
Qed.

(** ** Edges the decoder never reads *)

Section Unread.

Variable es : list DhtEdge.
Variable i : nat.
Variable e : DhtEdge.

Lemma edge_at_insert_ne (j : Z) :
  j <> Z.of_nat i -> edge_at (<[i := e]> es) j = edge_at es j.
Proof.
  intros Hne. unfold edge_at.
  destruct (Z.leb_spec 0 j); [|reflexivity].
  apply list_lookup_insert_ne. lia.
Qed.

Lemma window_readings_insert (base : Z) :
  (Z.of_nat i < base \/ base + 16 < Z.of_nat i) ->
  forall n k : nat,
    (k + n <= 8)%nat ->
    window_readings (<[i := e]> es) base k n = window_readings es base k n.
Proof.
  intros Hout. induction n as [|n IH]; intros k Hk; [reflexivity|].
  cbn [window_readings]. unfold bit_reading.
  rewrite !edge_at_insert_ne by lia.
  now rewrite IH by lia.
Qed.

Lemma decode_insert (base : Z) :
  0 <= base -> base + 16 < Z.of_nat (length es) ->
  (Z.of_nat i < base \/ base + 16 < Z.of_nat i) ->
  dht_decode_byte (<[i := e]> es) base = dht_decode_byte es base.
Proof.
  intros Hb Hl Hout.
  destruct (decode_byte_spec_defined es base Hb Hl) as [r Hr].
  rewrite (decode_byte_spec_sound es base r Hr).
  apply decode_byte_spec_sound.
  unfold decode_byte_spec in *.
  now rewrite window_readings_insert.
Qed.

End Unread.

(** X18. The decoder does not validate the acknowledge or the end of the
    sequence: in a complete capture of 84 edges, replacing edge 0, 1 or 83,
    or an edge strictly inside a decimal window (19 to 33, 51 to 65), by any
    sample whatever, timestamp and level, does not change what
    [dht_get_data] returns. *)
Theorem get_data_ignores_unread_edges
        (self : Dht) (now : Z) (data : DhtData) (i : nat) (e : DhtEdge) :
  current_edge self = DHT_EDGES_NUMBER ->
  length (edges self) = 84%nat ->
  unread_edge i = true ->
  dht_get_data (mkDht (<[i := e]> (edges self)) (current_edge self)) now data
  = dht_get_data self now data.
Proof.
  intros Hready Hlen Hi.
  unfold dht_get_data.
  rewrite (check_status_ready self now Hready).
  rewrite (check_status_ready (mkDht _ _) now Hready).
  simpl edges.
  unfold DHT_INTEGRAL_RH_EDGES_INDEX, DHT_INTEGRAL_T_EDGES_INDEX, DHT_CHECKSUM_EDGES_INDEX.
  assert (Hcases : (i < 2 \/ 19 <= i <= 33 \/ 51 <= i <= 65 \/ i = 83)%nat).
  { unfold unread_edge in Hi.
    destruct (Nat.ltb_spec i 2), (Nat.leb_spec 19 i), (Nat.leb_spec i 33),
             (Nat.leb_spec 51 i), (Nat.leb_spec i 65), (Nat.eqb_spec i 83);
      simpl in Hi; try discriminate; lia. }
  rewrite !decode_insert by lia.
  reflexivity.
Qed.

(** The scenario with its acknowledge pulse replaced by nonsense. *)
Lemma get_data_ignores_unread_edges_witness :
  dht_get_data (mkDht (<[1%nat := mkEdge 7 DHT_DATA_LOW]> scenario_edges) DHT_EDGES_NUMBER)
               0 blank_data
  = dht_get_data (ready scenario_edges) 0 blank_data.
Proof.
  apply (get_data_ignores_unread_edges (ready scenario_edges) 0 blank_data 1
           (mkEdge 7 DHT_DATA_LOW)); reflexivity.
Defined.
